(** * SuperCompose: superquadric mesh generation and parameter persistence

    A shallow embedding of [generate_superquadric_mesh], [load_superquadrics]
    and [save_object] from [gui_rot.py], with the properties of the mesh
    (grid structure, counts, index validity, unit sphere, finiteness,
    scaling) and of the JSON persistence (filtering of unused slots,
    what a saved file looks like to the loader).

    Numbers.  The Python code computes on IEEE doubles.  The mesh part is
    modelled over the real numbers [R]: rounding and overflow are not
    represented, but the places where numpy leaves the finite reals
    (a negative base under a fractional exponent, zero under a negative
    exponent) are, through the type [float] below.  The persistence part
    only stores, compares with zero and rounds to two decimals; it is
    modelled over the rationals [Q], of which every finite double is one.
    Where a property turns on the rounding itself, the formats are
    modelled: [Binary] rounds rationals to binary64 and binary32 (the
    product test of the display, the 32-bit fields of a material record),
    and [Doubles] runs the generator on the binary64 floats of the kernel
    (the scaling of vertices). *)

From Stdlib Require Import Reals Lra Lia ZArith List QArith Qround Bool.
From Stdlib Require String.
From Stdlib Require Import Qreals Qabs Qpower.
From Stdlib Require Lqa Floats Uint63.
From Stdlib Require Import Permutation.
Import ListNotations.

(* ================================================================== *)
(** ** Python results *)

Inductive exn : Type :=
| ValueError
| TypeError
| KeyError
| IndexError
| AttributeError
| FileNotFoundError.

Inductive result (A : Type) : Type :=
| Ok (a : A)
| Err (e : exn).
Arguments Ok {A} a.
Arguments Err {A} e.

Definition bind {A B : Type} (r : result A) (k : A -> result B) : result B :=
  match r with
  | Ok a => k a
  | Err e => Err e
  end.

Notation "x <- r ;; k" := (bind r (fun x => k))
  (at level 61, r at next level, right associativity).

(** [range(n)] on Python integers: empty when [n <= 0]. *)
Definition range (n : Z) : list Z := map Z.of_nat (seq 0 (Z.to_nat n)).

(* ================================================================== *)
(** ** The numpy operations the generator uses *)

Module Np.

Local Open Scope R_scope.

(** A value of a numpy float array: a finite real, or one of the
    non-finite doubles ([inf], [-inf], [nan]).  The generator only ever
    multiplies such values, and a product with a non-finite factor is
    non-finite, so the three are not told apart. *)
Inductive float : Type :=
| Finite (r : R)
| NotFinite.

Definition fmul (x y : float) : float :=
  match x, y with
  | Finite a, Finite b => Finite (a * b)
  | _, _ => NotFinite
  end.

(** [np.sign] on one element. *)
Definition sign (v : R) : R :=
  if Rlt_dec 0 v then 1 else if Rlt_dec v 0 then -1 else 0.

(** [b ** e] on one element of a float array:
    - a positive base has the real power [exp (e * ln b)];
    - [0 ** e] is [0] for [e > 0], [1] for [e = 0] and [inf] otherwise;
    - a negative base has a (signed) power when [e] is an integer and
      gives [nan] when it is not. *)
Definition power (b e : R) : float :=
  if Rlt_dec 0 b then Finite (Rpower b e)
  else if Req_dec_T b 0 then
    (if Rlt_dec 0 e then Finite 0
     else if Req_dec_T e 0 then Finite 1
     else NotFinite)
  else
    (if Req_dec_T e (IZR (Int_part e)) then Finite (powerRZ b (Int_part e))
     else NotFinite).

(** [np.linspace(start, stop, num)]: [num] samples [start + i * step] with
    [step = (stop - start) / (num - 1)]; a negative [num] is rejected.
    (numpy stores [stop] itself in the last slot when [num > 1]; over the
    reals that is the value the formula gives, see [linspace_last].) *)
Definition linspace (start stop : R) (num : Z) : result (list R) :=
  if (num <? 0)%Z then Err ValueError
  else
    let div := (num - 1)%Z in
    let delta := stop - start in
    Ok (map (fun i => if (0 <? div)%Z
                      then start + IZR i * (delta / IZR div)
                      else start + IZR i * delta)
            (range num)).

(** Two-dimensional arrays, as rows. *)
Definition grid (A : Type) : Type := list (list A).

(** [np.meshgrid(xs, ys)] with the default ['xy'] indexing: both results
    have [len ys] rows and [len xs] columns; the first repeats [xs] in
    every row, the second holds [ys[i]] all along row [i]. *)
Definition meshgrid (xs ys : list R) : grid R * grid R :=
  (map (fun _ => xs) ys, map (fun y => map (fun _ => y) xs) ys).

Definition map2 {A B C : Type} (f : A -> B -> C) (l1 : list A) (l2 : list B)
  : list C :=
  map (fun p => f (fst p) (snd p)) (combine l1 l2).

(** Elementwise operations.  The binary one is only applied to arrays of
    one shape (numpy would raise on a mismatch). *)
Definition gmap {A B : Type} (f : A -> B) (g : grid A) : grid B :=
  map (map f) g.

Definition gzip {A B C : Type} (f : A -> B -> C) (g1 : grid A) (g2 : grid B)
  : grid C :=
  map2 (map2 f) g1 g2.

Definition np_cos : grid R -> grid R := gmap cos.
Definition np_sin : grid R -> grid R := gmap sin.
Definition np_abs : grid R -> grid R := gmap Rabs.
Definition np_sign : grid R -> grid R := gmap sign.

(** [a * g] for a Python scalar [a]. *)
Definition scal (a : R) (g : grid R) : grid R := gmap (Rmult a) g.

(** [g ** e] for a Python scalar [e]. *)
Definition np_power (g : grid R) (e : R) : grid float :=
  gmap (fun b => power b e) g.

(** An array of finite values seen as a float array. *)
Definition fin : grid R -> grid float := gmap Finite.

(** [g1 * g2]. *)
Definition np_mul : grid float -> grid float -> grid float := gzip fmul.

(** [g.flatten()]: row-major. *)
Definition flatten {A : Type} (g : grid A) : list A := List.concat g.

(** [np.vstack((xs, ys, zs)).T]: row [k] is [(xs[k], ys[k], zs[k])]. *)
Definition vstack_T {A : Type} (xs ys zs : list A) : list (A * A * A) :=
  map2 (fun x yz => (x, fst yz, snd yz)) xs (combine ys zs).

End Np.

(* ================================================================== *)
(** ** [generate_superquadric_mesh] *)

Module Mesh.

Import Np.
Local Open Scope R_scope.

Definition vertex : Type := float * float * float.
Definition face : Type := (Z * Z * Z)%type.

(** The two nested [for] loops, appending to [faces]. *)
Definition faces_loop (num_points : Z) : list face :=
  fold_left
    (fun faces i =>
       fold_left
         (fun faces j =>
            let idx := (i * num_points + j)%Z in
            let faces := faces ++ [(idx, idx + 1, idx + num_points)%Z] in
            faces ++ [(idx + 1, idx + num_points + 1, idx + num_points)%Z])
         (range (num_points - 1)) faces)
    (range (num_points - 1)) [].

Definition generate_superquadric_mesh
    (a1 a2 a3 epsilon1 epsilon2 : R) (num_points : Z)
  : result (list vertex * list face) :=
  ph <- linspace (- PI / 2) (PI / 2) num_points ;;
  th <- linspace (- PI) PI num_points ;;
  let (phi, theta) := meshgrid ph th in
  let x :=
    np_mul (np_mul (np_mul (fin (scal a1 (np_sign (np_cos phi))))
                           (np_power (np_abs (np_cos phi)) epsilon1))
                   (fin (np_sign (np_cos theta))))
           (np_power (np_abs (np_cos theta)) epsilon2) in
  let y :=
    np_mul (np_mul (np_mul (fin (scal a2 (np_sign (np_cos phi))))
                           (np_power (np_abs (np_cos phi)) epsilon1))
                   (fin (np_sign (np_sin theta))))
           (np_power (np_abs (np_sin theta)) epsilon2) in
  let z :=
    np_mul (fin (scal a3 (np_sign (np_sin phi))))
           (np_power (np_abs (np_sin phi)) epsilon1) in
  let vertices := vstack_T (flatten x) (flatten y) (flatten z) in
  let faces := faces_loop num_points in
  Ok (vertices, faces).

End Mesh.

(* ================================================================== *)
(** ** JSON values and files *)

Module Json.

Import String.
Local Open Scope string_scope.
Local Open Scope list_scope.

(** What [json.load] returns and [json.dump] accepts: a Python [dict] with
    string keys is an association list in insertion order. *)
#[warnings="-register-all"]
Inductive json : Type :=
| JNull
| JBool (b : bool)
| JNum (q : Q)
| JStr (s : string)
| JArr (items : list json)
| JObj (fields : list (string * json)).

(** The files the program reads and writes, by name.  A file holds the JSON
    value that [json.dump] serialised into it and [json.load] parses back. *)
Definition files : Type := string -> option json.

Definition no_files : files := fun _ => None.

Definition write (name : string) (v : json) (fs : files) : files :=
  fun n => if String.eqb n name then Some v else fs n.

(** [with open(name, 'r') as file: json.load(file)]. *)
Definition load (name : string) (fs : files) : result json :=
  match fs name with
  | Some v => Ok v
  | None => Err FileNotFoundError
  end.

Fixpoint lookup (key : string) (fields : list (string * json)) : option json :=
  match fields with
  | [] => None
  | (k, v) :: rest => if String.eqb k key then Some v else lookup key rest
  end.

(** [v[key]] for a string [key]: only a [dict] can be indexed by a string. *)
Definition getitem_str (v : json) (key : string) : result json :=
  match v with
  | JObj fields =>
      match lookup key fields with
      | Some x => Ok x
      | None => Err KeyError
      end
  | _ => Err TypeError
  end.

(** [v[i]] for a non-negative integer literal [i]. *)
Definition getitem_int (v : json) (i : nat) : result json :=
  match v with
  | JArr items =>
      match nth_error items i with
      | Some x => Ok x
      | None => Err IndexError
      end
  | JStr s =>
      match String.get i s with
      | Some c => Ok (JStr (String c EmptyString))
      | None => Err IndexError
      end
  | JObj _ => Err KeyError
  | _ => Err TypeError
  end.

Fixpoint chars (s : string) : list json :=
  match s with
  | EmptyString => []
  | String c rest => JStr (String c EmptyString) :: chars rest
  end.

(** [for item in v]: the items of a list, the keys of a [dict], the
    characters of a string. *)
Definition iter (v : json) : result (list json) :=
  match v with
  | JArr items => Ok items
  | JObj fields => Ok (map (fun kv => JStr (fst kv)) fields)
  | JStr s => Ok (chars s)
  | _ => Err TypeError
  end.

(** [data.append(x)]: only a list has [append]. *)
Definition append (data x : json) : result json :=
  match data with
  | JArr items => Ok (JArr (items ++ [x]))
  | _ => Err AttributeError
  end.

(** The argument of a widget's [set_value(double)].  (The numbers of the
    model stand for doubles; a JSON integer too large for a double, which
    the widget rejects with a [TypeError], is outside it, see
    [Binary.fits_double].) *)
Definition to_double (v : json) : result Q :=
  match v with
  | JNum q => Ok q
  | JBool b => Ok (if b then 1%Q else 0%Q)
  | _ => Err TypeError
  end.

(** [round(q, ndigits)]: to the nearest multiple of [10 ^ -ndigits], a tie
    going to the even one. *)
Definition round_half_even (q : Q) : Z :=
  let f := Qfloor q in
  match Qcompare (q - inject_Z f) (1 # 2) with
  | Lt => f
  | Gt => (f + 1)%Z
  | Eq => if Z.even f then f else (f + 1)%Z
  end.

Definition round (q : Q) (ndigits : positive) : Q :=
  let s := Pos.pow 10 ndigits in
  Qmake (round_half_even (q * inject_Z (Zpos s))) s.

End Json.

(* ================================================================== *)
(** ** Superquadric entries, [load_superquadrics] and [save_object] *)

Module Gui.

Import String Json.
Local Open Scope string_scope.
Local Open Scope list_scope.

(** A [Superquadric]: seventeen number widgets, each holding the double
    that [set_value] stored and [double_value] reads. *)
Record Superquadric : Type := mkSuperquadric {
  a1 : Q; a2 : Q; a3 : Q;
  e1 : Q; e2 : Q;
  x : Q; y : Q; z : Q;
  r11 : Q; r12 : Q; r13 : Q;
  r21 : Q; r22 : Q; r23 : Q;
  r31 : Q; r32 : Q; r33 : Q
}.

Definition OUTPUT_JSON : string := "objects.json".

(** [v[i]] handed to [set_value]. *)
Definition item (v : json) (i : nat) : result Q :=
  c <- getitem_int v i ;; to_double c.

Definition item2 (v : json) (i j : nat) : result Q :=
  row <- getitem_int v i ;; item row j.

(** [Superquadric.set_values]: every widget of the entry is assigned, in
    the order of the source, so the result does not depend on what the
    constructor put in them. *)
Definition set_values (scale position epsilon1 epsilon2 rotation : json)
  : result Superquadric :=
  v_a1 <- item scale 0 ;;
  v_a2 <- item scale 1 ;;
  v_a3 <- item scale 2 ;;
  v_e1 <- to_double epsilon1 ;;
  v_e2 <- to_double epsilon2 ;;
  v_x <- item position 0 ;;
  v_y <- item position 1 ;;
  v_z <- item position 2 ;;
  v_r11 <- item2 rotation 0 0 ;;
  v_r12 <- item2 rotation 0 1 ;;
  v_r13 <- item2 rotation 0 2 ;;
  v_r21 <- item2 rotation 1 0 ;;
  v_r22 <- item2 rotation 1 1 ;;
  v_r23 <- item2 rotation 1 2 ;;
  v_r31 <- item2 rotation 2 0 ;;
  v_r32 <- item2 rotation 2 1 ;;
  v_r33 <- item2 rotation 2 2 ;;
  Ok (mkSuperquadric v_a1 v_a2 v_a3 v_e1 v_e2 v_x v_y v_z
                     v_r11 v_r12 v_r13 v_r21 v_r22 v_r23 v_r31 v_r32 v_r33).

(** One turn of the loop of [load_superquadrics]. *)
Definition load_component (component : json) : result Superquadric :=
  scale <- getitem_str component "scale" ;;
  position <- getitem_str component "position" ;;
  epsilon1 <- getitem_str component "epsilon1" ;;
  epsilon2 <- getitem_str component "epsilon2" ;;
  rotation <- getitem_str component "rotation" ;;
  set_values scale position epsilon1 epsilon2 rotation.

Definition load_superquadrics (filename : string) (fs : files)
  : result (list Superquadric) :=
  data <- load filename fs ;;
  components <- getitem_str data "components" ;;
  items <- iter components ;;
  fold_left
    (fun acc component =>
       superquadrics <- acc ;;
       sq <- load_component component ;;
       Ok (superquadrics ++ [sq]))
    items (Ok []).

(** [v == 0] on a double. *)
Definition is_zero (v : Q) : bool := Qeq_bool v 0.

(** The dictionary [sq_data] built for one entry. *)
Definition sq_data (sq : Superquadric) : json :=
  let rotation :=
    JArr [JArr [JNum (r11 sq); JNum (r12 sq); JNum (r13 sq)];
          JArr [JNum (r21 sq); JNum (r22 sq); JNum (r23 sq)];
          JArr [JNum (r31 sq); JNum (r32 sq); JNum (r33 sq)]] in
  let scale := JArr [JNum (a1 sq); JNum (a2 sq); JNum (a3 sq)] in
  let position := JArr [JNum (x sq); JNum (y sq); JNum (z sq)] in
  JObj [("scale", scale);
        ("rotation", rotation);
        ("position", position);
        ("epsilon1", JNum (round (e1 sq) 2));
        ("epsilon2", JNum (round (e2 sq) 2))].

(** The loop of [save_object] over [self.sqs], with its [continue]. *)
Definition saved_superquadrics (sqs : list Superquadric) : list json :=
  fold_left
    (fun superquadrics sq =>
       if is_zero (a1 sq) || is_zero (a2 sq) || is_zero (a3 sq)
       then superquadrics
       else superquadrics ++ [sq_data sq])
    sqs [].

(** [save_object], on the text of the description box and [self.sqs]. *)
Definition save_object (description : string) (sqs : list Superquadric)
    (fs : files) : result files :=
  let superquadrics := saved_superquadrics sqs in
  let new_entry :=
    JObj [("description", JStr description);
          ("superquadrics", JArr superquadrics)] in
  data <- match fs OUTPUT_JSON with
          | Some _ => load OUTPUT_JSON fs
          | None => Ok (JArr [])
          end ;;
  data <- append data new_entry ;;
  Ok (write OUTPUT_JSON data fs).

End Gui.

(* ================================================================== *)
(** ** The persistence as the specification describes it *)

Module GuiSpec.

Import String Json Gui.
Local Open Scope string_scope.
Local Open Scope list_scope.

(** All three semi-axes are nonzero. *)
Definition nonzero_axes (sq : Superquadric) : bool :=
  negb (is_zero (a1 sq)) && negb (is_zero (a2 sq)) && negb (is_zero (a3 sq)).

(** The entries already in the output file: none when there is no file,
    undefined when the file does not hold a list. *)
Definition stored_entries (fs : files) : option (list json) :=
  match fs OUTPUT_JSON with
  | None => Some []
  | Some (JArr entries) => Some entries
  | Some _ => None
  end.

(** [loaded] has the scale, position and rotation of [sq] and its
    exponents rounded to two decimals. *)
Definition reproduces (sq loaded : Superquadric) : Prop :=
  a1 loaded = a1 sq /\ a2 loaded = a2 sq /\ a3 loaded = a3 sq
  /\ x loaded = x sq /\ y loaded = y sq /\ z loaded = z sq
  /\ r11 loaded = r11 sq /\ r12 loaded = r12 sq /\ r13 loaded = r13 sq
  /\ r21 loaded = r21 sq /\ r22 loaded = r22 sq /\ r23 loaded = r23 sq
  /\ r31 loaded = r31 sq /\ r32 loaded = r32 sq /\ r33 loaded = r33 sq
  /\ e1 loaded = round (e1 sq) 2 /\ e2 loaded = round (e2 sq) 2.

(** Saving [sqs] and reloading the output file with [load_superquadrics]
    succeeds and reproduces every entry. *)
Definition round_trips (description : string) (sqs : list Superquadric)
    (fs : files) : Prop :=
  exists fs' loaded,
    save_object description sqs fs = Ok fs'
    /\ load_superquadrics OUTPUT_JSON fs' = Ok loaded
    /\ Forall2 reproduces sqs loaded.

(** [sq] with its exponents rounded to two decimals. *)
Definition rounded (sq : Superquadric) : Superquadric :=
  mkSuperquadric (a1 sq) (a2 sq) (a3 sq)
                 (round (e1 sq) 2) (round (e2 sq) 2)
                 (x sq) (y sq) (z sq)
                 (r11 sq) (r12 sq) (r13 sq)
                 (r21 sq) (r22 sq) (r23 sq)
                 (r31 sq) (r32 sq) (r33 sq).

(** An axis-aligned unit box-like entry at the origin. *)
Definition unit_sq : Superquadric :=
  mkSuperquadric 1 1 1 (1 # 2) (1 # 2) 0 0 0 1 0 0 0 1 0 0 0 1.

End GuiSpec.

(* ================================================================== *)
(** ** The mesh as the specification describes it *)

Module MeshSpec.

Import Np Mesh.
Local Open Scope R_scope.

(** The sign-preserving power [sign(v) * |v|^e]. *)
Definition spow (v e : R) : float := fmul (Finite (sign v)) (power (Rabs v) e).

(** The closed-form superquadric point at [(phi, theta)]. *)
Definition sq_point (a1 a2 a3 e1 e2 phi theta : R) : vertex :=
  (fmul (fmul (Finite a1) (spow (cos phi) e1)) (spow (cos theta) e2),
   fmul (fmul (Finite a2) (spow (cos phi) e1)) (spow (sin theta) e2),
   fmul (Finite a3) (spow (sin phi) e1)).

(** The [i]-th of [n] uniform samples of [[lo, hi]]. *)
Definition uniform_sample (lo hi : R) (n i : Z) : R :=
  lo + IZR i * ((hi - lo) / IZR (n - 1)).

Definition phi_at (n i : Z) : R := uniform_sample (- PI / 2) (PI / 2) n i.
Definition theta_at (n j : Z) : R := uniform_sample (- PI) PI n j.

(** The two triangles of grid cell [(i, j)]. *)
Definition cell_triangles (n i j : Z) : list face :=
  let idx := (i * n + j)%Z in
  [(idx, idx + 1, idx + n)%Z; (idx + 1, idx + n + 1, idx + n)%Z].

(** All cells [(i, j)], [i, j] in [[0, n-2]], cell by cell. *)
Definition cell_faces (n : Z) : list face :=
  flat_map (fun i => flat_map (fun j => cell_triangles n i j) (range (n - 1)))
           (range (n - 1)).

Definition face_indices (f : face) : list Z :=
  let '(a, b, c) := f in [a; b; c].

Definition coords (v : vertex) : list float :=
  let '(x, y, z) := v in [x; y; z].

(** Componentwise product [(a1 * x, a2 * y, a3 * z)]. *)
Definition scale_vertex (a1 a2 a3 : R) (v : vertex) : vertex :=
  let '(x, y, z) := v in
  (fmul (Finite a1) x, fmul (Finite a2) y, fmul (Finite a3) z).

(** The grid pairs [(i, j)] of a phi index and a theta index, theta by
    theta (rows) and, within a row, phi by phi (columns). *)
Definition grid_pairs (n : Z) : list (Z * Z) :=
  flat_map (fun j => map (fun i => (i, j)) (range n)) (range n).

(** The closed-form points over [grid_pairs], in that order. *)
Definition grid_vertices (a1 a2 a3 e1 e2 : R) (n : Z) : list vertex :=
  flat_map
    (fun j => map (fun i => sq_point a1 a2 a3 e1 e2 (phi_at n i) (theta_at n j))
                  (range n))
    (range n).

(** The reading of the vertex order with rows indexed by the phi sweep:
    the vertex at flat index [i * n + j] is the point at
    [(phi_i, theta_j)]. *)
Definition rows_by_phi (a1 a2 a3 e1 e2 : R) (n : Z) : Prop :=
  forall vs fs i j,
    generate_superquadric_mesh a1 a2 a3 e1 e2 n = Ok (vs, fs) ->
    (0 <= i < n)%Z -> (0 <= j < n)%Z ->
    nth_error vs (Z.to_nat (i * n + j))
    = Some (sq_point a1 a2 a3 e1 e2 (phi_at n i) (theta_at n j)).

(** A grid given by its entry at column value [x] and row value [y]. *)
Definition tab {A B C : Type} (F : A -> B -> C) (xs : list A) (ys : list B)
  : grid C :=
  map (fun y => map (fun x => F x y) xs) ys.

End MeshSpec.

(* ================================================================== *)
(** ** Binary floating-point formats *)

Module Binary.

(** A value of a binary floating-point format: a finite number, an
    infinity or [nan].  (The two zeros are not told apart.) *)
Inductive value : Type :=
| Num (q : Q)
| Inf (negative : bool)
| NaN.

Definition pow2 (e : Z) : Q := Qpower 2 e.

(** For [q > 0], the exponent [e] with [2^e <= q < 2^(e+1)]. *)
Definition floor_log2 (q : Q) : Z :=
  let e := (Z.log2 (Qnum q) - Z.log2 (Zpos (Qden q)))%Z in
  if Qle_bool (pow2 e) q then e else (e - 1)%Z.

Definition negative (q : Q) : bool := negb (Qle_bool 0 q).

(** Rounding to nearest, ties to even, in the format with [prec] bits of
    significand and exponents from [emin] to [emax]: gradual underflow
    below [2^emin], overflow to infinity from [2^(emax+1)] on. *)
Definition round (prec emin emax : Z) (q : Q) : value :=
  if Qeq_bool q 0 then Num 0
  else
    let e := floor_log2 (Qabs q) in
    let ulp := pow2 (Z.max e emin - (prec - 1)) in
    let r := (inject_Z (Json.round_half_even (q / ulp)) * ulp)%Q in
    if Qle_bool (pow2 (emax + 1)) (Qabs r) then Inf (negative q) else Num r.

(** binary64, the [float] of Python and C's [double]. *)
Definition to_double : Q -> value := round 53 (-1022) 1023.

(** binary32, C's [float]. *)
Definition to_float32 : Q -> value := round 24 (-126) 127.

(** The product of two doubles. *)
Definition mul (x y : value) : value :=
  match x, y with
  | Num a, Num b => to_double (a * b)
  | NaN, _ | _, NaN => NaN
  | Inf s, Num b | Num b, Inf s =>
      if Qeq_bool b 0 then NaN else Inf (xorb s (negative b))
  | Inf s, Inf t => Inf (xorb s t)
  end.

(** [x != 0]. *)
Definition nonzero (x : value) : bool :=
  match x with
  | Num q => negb (Qeq_bool q 0)
  | Inf _ => true
  | NaN => true
  end.

(** Converting [q] to a double does not overflow. *)
Definition fits_double (q : Q) : Prop := exists r, to_double q = Num r.

End Binary.

(* ================================================================== *)
(** ** [save_sq_json] ([save_json.py]) *)

Module SaveJson.

Import Stdlib.Strings.Ascii String Json.
Local Open Scope string_scope.
Local Open Scope list_scope.

(** [arr[k, :]] on an array given by its rows. *)
Definition row {A : Type} (arr : list A) (k : nat) : result A :=
  match nth_error arr k with
  | Some r => Ok r
  | None => Err IndexError
  end.

(** [arr[k, c]]. *)
Definition entry (arr : list (list Q)) (k c : nat) : result Q :=
  r <- row arr k ;; row r c.

(** [.tolist()] of a vector and of a matrix of doubles. *)
Definition tolist (v : list Q) : json := JArr (map JNum v).
Definition tolist2 (m : list (list Q)) : json := JArr (map tolist m).

(** [os.path.join(a, b)] (POSIX). *)
Definition ends_with_slash (a : string) : bool :=
  match String.get (String.length a - 1) a with
  | Some c => Ascii.eqb c "/"%char
  | None => false
  end.

Definition path_join (a b : string) : string :=
  if String.prefix "/" b then b
  else if (String.eqb a "" || ends_with_slash a)%bool then a ++ b
  else a ++ "/" ++ b.

(** One turn of the loop of [save_sq_json].  [from_matrix] stands for
    scipy's [Rotation.from_matrix], whose result the function drops: all
    that reaches the caller is whether it raises. *)
Definition component_at (from_matrix : list (list Q) -> result unit)
    (scale : list (list Q)) (rotate : list (list (list Q)))
    (trans exps : list (list Q)) (k : nat) : result json :=
  s <- row scale k ;;
  rot3x3 <- row rotate k ;;
  _ <- from_matrix rot3x3 ;;
  t <- row trans k ;;
  eps1 <- entry exps k 0 ;;
  eps2 <- entry exps k 1 ;;
  Ok (JObj [("scale", tolist s);
            ("rotation", tolist2 rot3x3);
            ("position", tolist t);
            ("epsilon1", JNum eps1);
            ("epsilon2", JNum eps2)]).

(** [save_sq_json].  [open_w path] stands for [open(path, 'w')], which
    creates no directory: it raises [FileNotFoundError] when the directory
    of [path] does not exist (and other errors of the operating system when
    the file cannot be created there). *)
Definition save_sq_json (from_matrix : list (list Q) -> result unit)
    (open_w : string -> result unit)
    (scale : list (list Q)) (rotate : list (list (list Q)))
    (trans exps : list (list Q)) (save_path : string) (fs : files)
  : result files :=
  let num_el := List.length scale in
  components <-
    fold_left
      (fun acc k =>
         components <- acc ;;
         component <- component_at from_matrix scale rotate trans exps k ;;
         Ok (components ++ [component]))
      (seq 0 num_el) (Ok []) ;;
  let res := JObj [("components", JArr components)] in
  _ <- open_w (path_join save_path "my_sq.json") ;;
  Ok (write (path_join save_path "my_sq.json") res fs).

(** The arrays holding the parameters of a list of entries: [N x 3] scales,
    [N x 3 x 3] rotations, [N x 3] translations, [N x 2] exponents. *)
Definition scale_of (sqs : list Gui.Superquadric) : list (list Q) :=
  map (fun sq => [Gui.a1 sq; Gui.a2 sq; Gui.a3 sq]) sqs.

Definition rotation_of (sq : Gui.Superquadric) : list (list Q) :=
  [[Gui.r11 sq; Gui.r12 sq; Gui.r13 sq];
   [Gui.r21 sq; Gui.r22 sq; Gui.r23 sq];
   [Gui.r31 sq; Gui.r32 sq; Gui.r33 sq]].

Definition rotate_of (sqs : list Gui.Superquadric) : list (list (list Q)) :=
  map rotation_of sqs.

Definition trans_of (sqs : list Gui.Superquadric) : list (list Q) :=
  map (fun sq => [Gui.x sq; Gui.y sq; Gui.z sq]) sqs.

Definition exps_of (sqs : list Gui.Superquadric) : list (list Q) :=
  map (fun sq => [Gui.e1 sq; Gui.e2 sq]) sqs.

End SaveJson.

(* ================================================================== *)
(** ** [compute_centroid] ([get_images.py]) *)

Module Centroid.

Import Np.
Local Open Scope R_scope.







End Centroid.

(* ================================================================== *)
(** ** [AppWindow.visualize_superquadrics] and [AppWindow.add_superquadric] *)

Module Visualize.

Import String Np Mesh Json Gui.
Local Open Scope string_scope.
Local Open Scope list_scope.

Definition fadd (x y : float) : float :=
  match x, y with
  | Finite a, Finite b => Finite (a + b)%R
  | _, _ => NotFinite
  end.

(** The default [num_points] of [generate_superquadric_mesh]. *)
Definition default_num_points : Z := 50.

(** Entry [i] of one row of [vertices @ R.T]: the row times row [i] of
    [R]. *)
Definition dot_row (v : vertex) (ri1 ri2 ri3 : Q) : float :=
  let '(vx, vy, vz) := v in
  fadd (fadd (fmul vx (Finite (Q2R ri1))) (fmul vy (Finite (Q2R ri2))))
       (fmul vz (Finite (Q2R ri3))).

(** [vertices @ R.T] followed by [vertices += [x, y, z]], on one row. *)
Definition transform (sq : Superquadric) (v : vertex) : vertex :=
  (fadd (dot_row v (r11 sq) (r12 sq) (r13 sq)) (Finite (Q2R (x sq))),
   fadd (dot_row v (r21 sq) (r22 sq) (r23 sq)) (Finite (Q2R (y sq))),
   fadd (dot_row v (r31 sq) (r32 sq) (r33 sq)) (Finite (Q2R (z sq)))).

(** [a1 * a2 * a3 != 0] on the doubles of the three semi-axis widgets: the
    two products are rounded, so the test fails when they underflow to
    zero and holds when they overflow. *)
Definition axes_product_nonzero (sq : Superquadric) : bool :=
  Binary.nonzero
    (Binary.mul (Binary.mul (Binary.Num (a1 sq)) (Binary.Num (a2 sq)))
                (Binary.Num (a3 sq))).

(** The loop of [visualize_superquadrics] over [self.sqs]: the geometries
    it hands to [add_geometry], each under the index [i] of its name
    [__superquadric__i], with its vertices and triangles.  (Clearing the
    scene, the instance markers, the normals, the colour and the camera are
    calls into the toolkit.) *)
Definition visualize_superquadrics (sqs : list Superquadric)
  : result (list (nat * (list vertex * list face))) :=
  fold_left
    (fun acc (isq : nat * Superquadric) =>
       scene <- acc ;;
       let (i, sq) := isq in
       if axes_product_nonzero sq then
         mesh <- generate_superquadric_mesh
                   (Q2R (a1 sq)) (Q2R (a2 sq)) (Q2R (a3 sq))
                   (Q2R (e1 sq)) (Q2R (e2 sq)) default_num_points ;;
         let (vertices, faces) := mesh in
         Ok (scene ++ [(i, (map (transform sq) vertices, faces))])
       else Ok scene)
    (combine (seq 0 (List.length sqs)) sqs) (Ok []).

(** Reading an attribute of a [Superquadric]: the class has the seventeen
    widgets and nothing else to read. *)
Definition getattr (sq : Superquadric) (name : string) : result Q :=
  if String.eqb name "a1" then Ok (a1 sq)
  else if String.eqb name "a2" then Ok (a2 sq)
  else if String.eqb name "a3" then Ok (a3 sq)
  else if String.eqb name "e1" then Ok (e1 sq)
  else if String.eqb name "e2" then Ok (e2 sq)
  else if String.eqb name "x" then Ok (x sq)
  else if String.eqb name "y" then Ok (y sq)
  else if String.eqb name "z" then Ok (z sq)
  else if String.eqb name "r11" then Ok (r11 sq)
  else if String.eqb name "r12" then Ok (r12 sq)
  else if String.eqb name "r13" then Ok (r13 sq)
  else if String.eqb name "r21" then Ok (r21 sq)
  else if String.eqb name "r22" then Ok (r22 sq)
  else if String.eqb name "r23" then Ok (r23 sq)
  else if String.eqb name "r31" then Ok (r31 sq)
  else if String.eqb name "r32" then Ok (r32 sq)
  else if String.eqb name "r33" then Ok (r33 sq)
  else Err AttributeError.

(** [self.sqs[-1]]. *)
Definition last_item (sqs : list Superquadric) : result Superquadric :=
  match rev sqs with
  | sq :: _ => Ok sq
  | [] => Err IndexError
  end.

(** [add_superquadric].  [fresh] is what [Superquadric()] returns; the
    state is [self.sqs] and the numbers [n] of the panels [SQn] that
    [self.stored_superquadrics] holds.  The first component of the result
    is the state the call leaves behind, also when it raises. *)
Definition add_superquadric (fresh : Superquadric)
    (st : list Superquadric * list nat)
  : (list Superquadric * list nat) * result unit :=
  let (sqs, panels) := st in
  let sqs := sqs ++ [fresh] in
  let idx := (List.length sqs - 1)%nat in
  let grid :=
    fold_left
      (fun acc name =>
         children <- acc ;;
         sq <- last_item sqs ;;
         widget <- getattr sq name ;;
         Ok (children ++ [widget]))
      ["e1"; "e2"; "a1"; "a2"; "a3"; "x"; "y"; "z"; "roll"; "pitch"; "yaw"]
      (Ok []) in
  match grid with
  | Ok _ => ((sqs, panels ++ [(idx + 1)%nat]), Ok tt)
  | Err e => ((sqs, panels), Err e)
  end.

End Visualize.

(* ================================================================== *)
(** ** [Settings] *)

Module SettingsModel.

Import String Json.
Local Open Scope string_scope.
Local Open Scope list_scope.

(** A Python [dict] with string keys: [d[k]] and [d[k] = v] (an existing
    key keeps its place, a new one goes last). *)
Fixpoint assoc {A : Type} (key : string) (d : list (string * A)) : option A :=
  match d with
  | [] => None
  | (k, v) :: rest => if String.eqb k key then Some v else assoc key rest
  end.

Fixpoint assoc_set {A : Type} (key : string) (v : A) (d : list (string * A))
  : list (string * A) :=
  match d with
  | [] => [(key, v)]
  | (k, w) :: rest =>
      if String.eqb k key then (k, v) :: rest
      else (k, w) :: assoc_set key v rest
  end.

Definition UNLIT : string := "defaultUnlit".
Definition LIT : string := "defaultLit".
Definition NORMALS : string := "normals".
Definition DEPTH : string := "depth".

Definition DEFAULT_PROFILE_NAME : string := "Bright day with sun at +Y [default]".
Definition POINT_CLOUD_PROFILE_NAME : string := "Cloudy day (no direct sun)".
Definition CUSTOM_PROFILE_NAME : string := "Custom".

Definition sun_vector (a b c : Q) : json := JArr [JNum a; JNum b; JNum c].

Definition LIGHTING_PROFILES : list (string * list (string * json)) :=
  [(DEFAULT_PROFILE_NAME,
    [("ibl_intensity", JNum 45000);
     ("sun_intensity", JNum 45000);
     ("sun_dir", sun_vector (577 # 1000) (-577 # 1000) (-577 # 1000));
     ("use_ibl", JBool true);
     ("use_sun", JBool true)]);
   ("Bright day with sun at -Y",
    [("ibl_intensity", JNum 45000);
     ("sun_intensity", JNum 45000);
     ("sun_dir", sun_vector (577 # 1000) (577 # 1000) (577 # 1000));
     ("use_ibl", JBool true);
     ("use_sun", JBool true)]);
   ("Bright day with sun at +Z",
    [("ibl_intensity", JNum 45000);
     ("sun_intensity", JNum 45000);
     ("sun_dir", sun_vector (577 # 1000) (577 # 1000) (-577 # 1000));
     ("use_ibl", JBool true);
     ("use_sun", JBool true)]);
   ("Less Bright day with sun at +Y",
    [("ibl_intensity", JNum 35000);
     ("sun_intensity", JNum 50000);
     ("sun_dir", sun_vector (577 # 1000) (-577 # 1000) (-577 # 1000));
     ("use_ibl", JBool true);
     ("use_sun", JBool true)]);
   ("Less Bright day with sun at -Y",
    [("ibl_intensity", JNum 35000);
     ("sun_intensity", JNum 50000);
     ("sun_dir", sun_vector (577 # 1000) (577 # 1000) (577 # 1000));
     ("use_ibl", JBool true);
     ("use_sun", JBool true)]);
   ("Less Bright day with sun at +Z",
    [("ibl_intensity", JNum 35000);
     ("sun_intensity", JNum 50000);
     ("sun_dir", sun_vector (577 # 1000) (577 # 1000) (-577 # 1000));
     ("use_ibl", JBool true);
     ("use_sun", JBool true)]);
   (POINT_CLOUD_PROFILE_NAME,
    [("ibl_intensity", JNum 60000);
     ("sun_intensity", JNum 50000);
     ("use_ibl", JBool true);
     ("use_sun", JBool false)])].

Definition DEFAULT_MATERIAL_NAME : string := "Polished ceramic [default]".

Definition prefab_of (metallic roughness reflectance clearcoat
                      clearcoat_roughness anisotropy : Q)
  : list (string * Q) :=
  [("metallic", metallic);
   ("roughness", roughness);
   ("reflectance", reflectance);
   ("clearcoat", clearcoat);
   ("clearcoat_roughness", clearcoat_roughness);
   ("anisotropy", anisotropy)].

Definition PREFAB : list (string * list (string * Q)) :=
  [(DEFAULT_MATERIAL_NAME,
    prefab_of 0 (7 # 10) (5 # 10) (2 # 10) (2 # 10) 0);
   ("Metal (rougher)",
    prefab_of 1 (5 # 10) (9 # 10) 0 0 0);
   ("Metal (smoother)",
    prefab_of 1 (3 # 10) (9 # 10) 0 0 0);
   ("Plastic",
    prefab_of 0 (5 # 10) (5 # 10) (5 # 10) (2 # 10) 0);
   ("Glazed ceramic",
    prefab_of 0 (5 # 10) (9 # 10) 1 (1 # 10) 0);
   ("Clay",
    prefab_of 0 1 (5 # 10) (1 # 10) (287 # 1000) 0)].

(** The attributes of a [rendering.MaterialRecord] the program touches.
    The record is a C++ structure whose numbers are 32-bit floats: a field
    holds the binary32 value nearest to what was assigned, and that is
    what reading it returns. *)
Record MaterialRecord : Type := mkMaterial {
  base_color : list Binary.value;
  shader : string;
  base_metallic : Binary.value;
  base_roughness : Binary.value;
  base_reflectance : Binary.value;
  base_clearcoat : Binary.value;
  base_clearcoat_roughness : Binary.value;
  base_anisotropy : Binary.value;
  point_size : Binary.value
}.

(** [material.base_color = c] for a list [c] of Python floats. *)
Definition with_base_color (c : list Q) (m : MaterialRecord) : MaterialRecord :=
  mkMaterial (map Binary.to_float32 c) (shader m) (base_metallic m)
             (base_roughness m) (base_reflectance m) (base_clearcoat m)
             (base_clearcoat_roughness m) (base_anisotropy m) (point_size m).

Definition with_shader (sh : string) (m : MaterialRecord) : MaterialRecord :=
  mkMaterial (base_color m) sh (base_metallic m) (base_roughness m)
             (base_reflectance m) (base_clearcoat m)
             (base_clearcoat_roughness m) (base_anisotropy m) (point_size m).

(** [setattr(material, name, val)] for a number [val]: the colour and the
    shader do not take a number, and the record has no attribute
    dictionary, so an unknown name raises. *)
Definition mat_setattr (m : MaterialRecord) (name : string) (v : Q)
  : result MaterialRecord :=
  let v := Binary.to_float32 v in
  if String.eqb name "base_metallic" then
    Ok (mkMaterial (base_color m) (shader m) v (base_roughness m)
                   (base_reflectance m) (base_clearcoat m)
                   (base_clearcoat_roughness m) (base_anisotropy m)
                   (point_size m))
  else if String.eqb name "base_roughness" then
    Ok (mkMaterial (base_color m) (shader m) (base_metallic m) v
                   (base_reflectance m) (base_clearcoat m)
                   (base_clearcoat_roughness m) (base_anisotropy m)
                   (point_size m))
  else if String.eqb name "base_reflectance" then
    Ok (mkMaterial (base_color m) (shader m) (base_metallic m)
                   (base_roughness m) v (base_clearcoat m)
                   (base_clearcoat_roughness m) (base_anisotropy m)
                   (point_size m))
  else if String.eqb name "base_clearcoat" then
    Ok (mkMaterial (base_color m) (shader m) (base_metallic m)
                   (base_roughness m) (base_reflectance m) v
                   (base_clearcoat_roughness m) (base_anisotropy m)
                   (point_size m))
  else if String.eqb name "base_clearcoat_roughness" then
    Ok (mkMaterial (base_color m) (shader m) (base_metallic m)
                   (base_roughness m) (base_reflectance m) (base_clearcoat m)
                   v (base_anisotropy m) (point_size m))
  else if String.eqb name "base_anisotropy" then
    Ok (mkMaterial (base_color m) (shader m) (base_metallic m)
                   (base_roughness m) (base_reflectance m) (base_clearcoat m)
                   (base_clearcoat_roughness m) v (point_size m))
  else if (String.eqb name "base_color" || String.eqb name "shader")%bool then
    Err TypeError
  else if String.eqb name "point_size" then
    Ok (mkMaterial (base_color m) (shader m) (base_metallic m)
                   (base_roughness m) (base_reflectance m) (base_clearcoat m)
                   (base_clearcoat_roughness m) (base_anisotropy m) v)
  else Err AttributeError.

(** A [Settings] object: its plain attributes by name, the dictionary
    [_materials], and the key of the record of [_materials] that
    [self.material] refers to ([self.material] is a reference into
    [_materials], not a copy). *)
Record Settings : Type := mkSettings {
  attrs : list (string * json);
  materials : list (string * MaterialRecord);
  material : string
}.

(** [Settings.__init__]; [fresh] is what [rendering.MaterialRecord()]
    returns. *)
Definition init (fresh : MaterialRecord) : Settings :=
  let grey := [9 # 10; 9 # 10; 9 # 10; 1] in
  mkSettings
    [("mouse_model", JStr "ROTATE_CAMERA");
     ("bg_color", JArr [JNum 1; JNum 1; JNum 1; JNum 1]);
     ("show_skybox", JBool false);
     ("show_axes", JBool false);
     ("use_ibl", JBool true);
     ("use_sun", JBool true);
     ("new_ibl_name", JNull);
     ("ibl_intensity", JNum 45000);
     ("sun_intensity", JNum 45000);
     ("sun_dir", sun_vector (577 # 1000) (-577 # 1000) (-577 # 1000));
     ("sun_color", JArr [JNum 1; JNum 1; JNum 1; JNum 1]);
     ("apply_material", JBool true)]
    [(LIT, with_shader LIT (with_base_color grey fresh));
     (UNLIT, with_shader UNLIT (with_base_color grey fresh));
     (NORMALS, with_shader NORMALS fresh);
     (DEPTH, with_shader DEPTH fresh)]
    LIT.

(** What a call leaves: a value, an exception, or a failed [assert]. *)
Inductive outcome (A : Type) : Type :=
| Returns (a : A)
| Raises (e : exn)
| AssertionFails.
Arguments Returns {A} a.
Arguments Raises {A} e.
Arguments AssertionFails {A}.

(** [self.material]. *)
Definition current (s : Settings) : option MaterialRecord :=
  assoc (material s) (materials s).

Definition set_material (name : string) (s : Settings) : result Settings :=
  match assoc name (materials s) with
  | Some _ =>
      Ok (mkSettings (assoc_set "apply_material" (JBool true) (attrs s))
                     (materials s) name)
  | None => Err KeyError
  end.

(** [apply_material_prefab].  The loop assigns through [self.material], so
    it is the record inside [_materials] that changes. *)
Definition apply_material_prefab (name : string) (s : Settings)
  : outcome Settings :=
  match current s with
  | None => Raises AttributeError
  | Some m =>
      if negb (String.eqb (shader m) LIT) then AssertionFails
      else
        match assoc name PREFAB with
        | None => Raises KeyError
        | Some prefab =>
            match fold_left
                    (fun acc kv =>
                       m <- acc ;; mat_setattr m ("base_" ++ fst kv) (snd kv))
                    prefab (Ok m) with
            | Ok m' =>
                Returns (mkSettings (attrs s)
                                    (assoc_set (material s) m' (materials s))
                                    (material s))
            | Err e => Raises e
            end
        end
  end.

(** [apply_lighting_profile]: [setattr(self, key, val)] for every item of
    the profile. *)
Definition apply_lighting_profile (name : string) (s : Settings)
  : result Settings :=
  match assoc name LIGHTING_PROFILES with
  | None => Err KeyError
  | Some profile =>
      Ok (mkSettings
            (fold_left (fun a kv => assoc_set (fst kv) (snd kv) a) profile
                       (attrs s))
            (materials s) (material s))
  end.

(** The state a [Settings] object is in between calls: [self.material] is
    one of the records of [_materials], and every record carries the shader
    it is filed under. *)
Definition well_formed (s : Settings) : Prop :=
  (exists m, current s = Some m)
  /\ forall k m, assoc k (materials s) = Some m -> shader m = k.

(** A material record to try the definitions on. *)
Definition plain_material : MaterialRecord :=
  mkMaterial [Binary.Num 1; Binary.Num 1; Binary.Num 1; Binary.Num 1]
             "defaultLit" (Binary.Num 0) (Binary.Num 1) (Binary.Num (1 # 2))
             (Binary.Num 0) (Binary.Num 0) (Binary.Num 0) (Binary.Num 3).

End SettingsModel.

(* ================================================================== *)
(** ** What [save_sq_json] writes for an entry *)

Module SaveJsonSpec.

Import String Json Gui SaveJson.
Local Open Scope string_scope.
Local Open Scope list_scope.

(** The component dictionary holding the parameters of [sq], unrounded. *)
Definition component_of (sq : Superquadric) : json :=
  JObj [("scale", tolist [a1 sq; a2 sq; a3 sq]);
        ("rotation", tolist2 (rotation_of sq));
        ("position", tolist [x sq; y sq; z sq]);
        ("epsilon1", JNum (e1 sq));
        ("epsilon2", JNum (e2 sq))].

End SaveJsonSpec.

(* ================================================================== *)
(** ** Vocabulary for the displayed meshes *)

Module VisualizeSpec.

Import Np Mesh MeshSpec Gui GuiSpec Visualize.

(** A semi-axis that is zero or of a magnitude from [2^-300] to [2^300]:
    products of three such doubles neither underflow nor overflow. *)
Definition moderate_axis (a : Q) : Prop :=
  (a == 0)%Q
  \/ (Binary.pow2 (-300) <= Qabs a)%Q /\ (Qabs a <= Binary.pow2 300)%Q.

Definition moderate (sq : Superquadric) : Prop :=
  moderate_axis (a1 sq) /\ moderate_axis (a2 sq) /\ moderate_axis (a3 sq).

(** The entries of [sqs] with their positions in the list, as the loop
    [for i in range(len(self.sqs))] meets them. *)
Definition indexed (sqs : list Superquadric) : list (nat * Superquadric) :=
  combine (seq 0 (length sqs)) sqs.

(** What one entry contributes to the scene. *)
Definition shown (isq : nat * Superquadric)
  : list (nat * (list vertex * list face)) :=
  let (i, sq) := isq in
  if axes_product_nonzero sq then
    [(i, (map (transform sq)
              (grid_vertices (Q2R (a1 sq)) (Q2R (a2 sq)) (Q2R (a3 sq))
                             (Q2R (e1 sq)) (Q2R (e2 sq)) 50),
          cell_faces 50))]
  else [].

End VisualizeSpec.

(* ================================================================== *)
(** ** The generator on doubles *)

(** The same function on IEEE binary64 numbers, the machine floats of the
    kernel: sums, products and quotients round as in the Python program.
    [np.cos], [np.sin] and [**] are taken from a [library], which numpy
    (and the C library under it) provides. *)

Module Doubles.

Import PrimFloat.
Local Open Scope float_scope.

Record library : Type := mkLibrary {
  cos : float -> float;
  sin : float -> float;
  power : float -> float -> float
}.

(** [np.pi]. *)
Definition pi : float := 0x1.921fb54442d18p+1.

(** The double of a small integer. *)
Definition of_Z (i : Z) : float := of_uint63 (Uint63.of_Z i).

(** [np.sign] on one element. *)
Definition sign (v : float) : float :=
  if 0 <? v then 1 else if v <? 0 then -1 else if v =? 0 then 0 else v.

(** [y[-1] = stop]. *)
Definition set_last (stop : float) (y : list float) : list float :=
  removelast y ++ [stop].

(** [np.linspace(start, stop, num)]: [arange(0, num) * step + start] with
    [step = (stop - start) / (num - 1)], the last sample overwritten with
    [stop]. *)
Definition linspace (start stop : float) (num : Z) : result (list float) :=
  if (num <? 0)%Z then Err ValueError
  else
    let div := (num - 1)%Z in
    let delta := stop - start in
    let y := map of_Z (range num) in
    let y :=
      if (0 <? div)%Z then
        let step := delta / of_Z div in
        if step =? 0
        then map (fun v => v / of_Z div * delta) y
        else map (fun v => v * step) y
      else map (fun v => v * delta) y in
    let y := map (fun v => v + start) y in
    Ok (if (1 <? num)%Z then set_last stop y else y).

Definition meshgrid (xs ys : list float) : Np.grid float * Np.grid float :=
  (map (fun _ => xs) ys, map (fun y => map (fun _ => y) xs) ys).

Definition np_mul : Np.grid float -> Np.grid float -> Np.grid float :=
  Np.gzip mul.

Definition vertex : Type := (float * float * float)%type.

Definition generate_superquadric_mesh (lib : library)
    (a1 a2 a3 epsilon1 epsilon2 : float) (num_points : Z)
  : result (list vertex * list Mesh.face) :=
  ph <- linspace (- pi / 2) (pi / 2) num_points ;;
  th <- linspace (- pi) pi num_points ;;
  let (phi, theta) := meshgrid ph th in
  let np_cos := Np.gmap (cos lib) in
  let np_sin := Np.gmap (sin lib) in
  let np_sign := Np.gmap sign in
  let np_abs := Np.gmap abs in
  let np_power g e := Np.gmap (fun b => power lib b e) g in
  let scal a := Np.gmap (fun v => a * v) in
  let x :=
    np_mul (np_mul (np_mul (scal a1 (np_sign (np_cos phi)))
                           (np_power (np_abs (np_cos phi)) epsilon1))
                   (np_sign (np_cos theta)))
           (np_power (np_abs (np_cos theta)) epsilon2) in
  let y :=
    np_mul (np_mul (np_mul (scal a2 (np_sign (np_cos phi)))
                           (np_power (np_abs (np_cos phi)) epsilon1))
                   (np_sign (np_sin theta)))
           (np_power (np_abs (np_sin theta)) epsilon2) in
  let z :=
    np_mul (scal a3 (np_sign (np_sin phi)))
           (np_power (np_abs (np_sin phi)) epsilon1) in
  let vertices := Np.vstack_T (Np.flatten x) (Np.flatten y) (Np.flatten z) in
  let faces := Mesh.faces_loop num_points in
  Ok (vertices, faces).

(** The scaling law on doubles: vertex [k] of the mesh with semi-axes
    [a1, a2, a3] is [(a1 * x, a2 * y, a3 * z)] for vertex [k = (x, y, z)] of
    the mesh with unit semi-axes. *)
Definition scaling (lib : library) (a1 a2 a3 e1 e2 : float) (n : Z) : Prop :=
  forall vs fs vs1 fs1 k x y z,
    generate_superquadric_mesh lib a1 a2 a3 e1 e2 n = Ok (vs, fs) ->
    generate_superquadric_mesh lib 1 1 1 e1 e2 n = Ok (vs1, fs1) ->
    nth_error vs1 k = Some (x, y, z) ->
    nth_error vs k = Some (a1 * x, a2 * y, a3 * z).

(** What numpy returns at the arguments that occur at resolution 2 with
    both exponents 1: the cosine and sine of the doubles nearest to
    [+-pi/2] and [+-pi], and [b ** 1 = b].  (Other arguments do not occur
    there; the table answers [nan] for them.) *)
Definition numpy_at_resolution_2 : library :=
  mkLibrary
    (fun v =>
       if abs v =? pi / 2 then 0x1.1a62633145c07p-54
       else if abs v =? pi then -1
       else nan)
    (fun v =>
       if v =? pi / 2 then 1
       else if v =? - pi / 2 then -1
       else if v =? pi then 0x1.1a62633145c07p-53
       else if v =? - pi then -0x1.1a62633145c07p-53
       else nan)
    (fun b e => if e =? 1 then b else nan).

End Doubles.

(* ================================================================== *)
(** ** Lists, ranges and tabulated grids *)

Import Np Mesh MeshSpec.

Section Lists.

Context {A B C : Type}.

Lemma map2_map_same {D : Type} (f : B -> C -> D) (g : A -> B) (h : A -> C)
    (l : list A) :
  map2 f (map g l) (map h l) = map (fun a => f (g a) (h a)) l.
Proof.
  unfold map2. induction l as [|a l IH]; simpl; [reflexivity|].
  f_equal. exact IH.
Qed.

Lemma fold_left_app_flat_map (step : list B -> A -> list B) (f : A -> list B)
    (l : list A) :
  (forall acc a, step acc a = acc ++ f a) ->
  forall init, fold_left step l init = init ++ flat_map f l.
Proof.
  intros Hstep. induction l as [|a l IH]; intros init; simpl.
  - now rewrite app_nil_r.
  - rewrite IH, Hstep, app_assoc. reflexivity.
Qed.

Lemma length_flat_map_uniform (f : A -> list B) (m : nat) (l : list A) :
  (forall a, length (f a) = m) ->
  length (flat_map f l) = (length l * m)%nat.
Proof.
  intros Hf. induction l as [|a l IH]; simpl; [reflexivity|].
  rewrite length_app, IH, Hf. reflexivity.
Qed.

Lemma nth_error_flat_map_uniform (f : A -> list B) (m : nat) :
  (forall a, length (f a) = m) ->
  forall (l : list A) (i j : nat),
    (j < m)%nat ->
    nth_error (flat_map f l) (i * m + j) =
    match nth_error l i with
    | Some a => nth_error (f a) j
    | None => None
    end.
Proof.
  intros Hf. induction l as [|a l IH]; intros i j Hj.
  - simpl. destruct i; simpl; now rewrite nth_error_nil.
  - destruct i as [|i]; simpl.
    + rewrite nth_error_app1 by (rewrite Hf; exact Hj). reflexivity.
    + rewrite nth_error_app2 by (rewrite Hf; lia).
      rewrite Hf. replace (m + i * m + j - m)%nat with (i * m + j)%nat by lia.
      apply IH. exact Hj.
Qed.

End Lists.

Section Ranges.

Lemma length_range (n : Z) : length (range n) = Z.to_nat n.
Proof. unfold range. now rewrite length_map, length_seq. Qed.

Lemma In_range (n k : Z) : In k (range n) <-> (0 <= k < n)%Z.
Proof.
  unfold range. rewrite in_map_iff. split.
  - intros [i [<- Hi]]. apply in_seq in Hi. lia.
  - intros Hk. exists (Z.to_nat k). split; [lia|]. apply in_seq. lia.
Qed.

Lemma nth_error_range (n : Z) (i : nat) :
  (i < Z.to_nat n)%nat -> nth_error (range n) i = Some (Z.of_nat i).
Proof.
  intros Hi. unfold range. rewrite nth_error_map.
  rewrite nth_error_seq. destruct (Nat.ltb_spec i (Z.to_nat n)); [reflexivity|lia].
Qed.

Lemma NoDup_range (n : Z) : NoDup (range n).
Proof.
  unfold range. apply Stdlib.Lists.Finite.Injective_map_NoDup.
  - intros a b Hab. lia.
  - apply seq_NoDup.
Qed.

End Ranges.

Section Grids.

Lemma meshgrid_tab (ph th : list R) :
  meshgrid ph th = (tab (fun p _ => p) ph th, tab (fun _ t => t) ph th).
Proof.
  unfold meshgrid, tab. apply f_equal2; [|reflexivity].
  apply map_ext. intros t. now rewrite map_id.
Qed.

Context {A B : Type}.
Variables (xs : list A) (ys : list B).

Lemma gmap_tab {C D : Type} (f : C -> D) (F : A -> B -> C) :
  gmap f (tab F xs ys) = tab (fun a b => f (F a b)) xs ys.
Proof.
  unfold gmap, tab. rewrite map_map. apply map_ext.
  intros b. apply map_map.
Qed.

Lemma gzip_tab {C D E : Type} (f : C -> D -> E)
    (F : A -> B -> C) (G : A -> B -> D) :
  gzip f (tab F xs ys) (tab G xs ys) = tab (fun a b => f (F a b) (G a b)) xs ys.
Proof.
  unfold gzip, tab. rewrite map2_map_same. apply map_ext.
  intros b. apply map2_map_same.
Qed.

Lemma flatten_tab {C : Type} (F : A -> B -> C) :
  flatten (tab F xs ys) = flat_map (fun b => map (fun a => F a b) xs) ys.
Proof. unfold flatten, tab. symmetry. apply flat_map_concat_map. Qed.

End Grids.

Lemma combine_app_same {A B : Type} (l1 r1 : list A) (l2 r2 : list B) :
  length l1 = length l2 ->
  combine (l1 ++ r1) (l2 ++ r2) = combine l1 l2 ++ combine r1 r2.
Proof.
  revert l2. induction l1 as [|a l1 IH]; intros [|b l2] H; simpl in *;
    try discriminate; [reflexivity|].
  f_equal. apply IH. now injection H.
Qed.

Lemma vstack_T_flat_map {A B C : Type} (X Y Z : A -> B -> C)
    (xs : list A) (ys : list B) :
  vstack_T (flat_map (fun b => map (fun a => X a b) xs) ys)
           (flat_map (fun b => map (fun a => Y a b) xs) ys)
           (flat_map (fun b => map (fun a => Z a b) xs) ys)
  = flat_map (fun b => map (fun a => (X a b, Y a b, Z a b)) xs) ys.
Proof.
  unfold vstack_T, map2. induction ys as [|b ys IH]; simpl; [reflexivity|].
  rewrite !combine_app_same, map_app by (now rewrite ?length_combine, !length_map, ?Nat.min_id).
  rewrite IH. f_equal.
  clear IH. induction xs as [|a xs' IH]; simpl; [reflexivity|].
  now rewrite IH.
Qed.

(** ** Arithmetic of array elements *)

Section Elements.

Local Open Scope R_scope.

Lemma fmul_assoc (x y z : float) : fmul (fmul x y) z = fmul x (fmul y z).
Proof.
  destruct x, y, z; simpl; try reflexivity. now rewrite Rmult_assoc.
Qed.

Lemma fmul_Finite (a b : R) : fmul (Finite a) (Finite b) = Finite (a * b).
Proof. reflexivity. Qed.

Lemma sign_Rabs (v : R) : sign v * Rabs v = v.
Proof.
  unfold sign. destruct (Rlt_dec 0 v) as [Hp|Hp].
  - rewrite Rabs_pos_eq; lra.
  - destruct (Rlt_dec v 0) as [Hn|Hn].
    + rewrite Rabs_left; lra.
    + replace v with 0 by lra. rewrite Rabs_R0. lra.
Qed.

Lemma sign_bound (v : R) : -1 <= sign v <= 1.
Proof.
  unfold sign. destruct (Rlt_dec 0 v); [lra|]. destruct (Rlt_dec v 0); lra.
Qed.

(** [b ** 1] is [b] for a base that is not negative. *)
Lemma power_1 (b : R) : 0 <= b -> power b 1 = Finite b.
Proof.
  intros Hb. unfold power. destruct (Rlt_dec 0 b) as [Hp|Hp].
  - now rewrite Rpower_1.
  - destruct (Req_dec_T b 0) as [->|Hz]; [|lra].
    destruct (Rlt_dec 0 1); [reflexivity|lra].
Qed.

(** The power of a base in [[0, 1]] under a positive exponent is a finite
    number of [[0, 1]]. *)
Lemma power_unit (b e : R) :
  0 <= b <= 1 -> 0 < e -> exists r, power b e = Finite r /\ 0 <= r <= 1.
Proof.
  intros [Hb0 Hb1] He. unfold power. destruct (Rlt_dec 0 b) as [Hp|Hp].
  - exists (Rpower b e). split; [reflexivity|]. split.
    + left. apply exp_pos.
    + rewrite <- (Rpower_1 1) by lra.
      replace (Rpower 1 1) with (Rpower 1 e).
      * apply Rle_Rpower_l; lra.
      * unfold Rpower. rewrite ln_1, !Rmult_0_r. reflexivity.
  - destruct (Req_dec_T b 0) as [->|Hz]; [|lra].
    destruct (Rlt_dec 0 e); [|lra]. exists 0. split; [reflexivity|lra].
Qed.

Lemma spow_1 (v : R) : spow v 1 = Finite v.
Proof.
  unfold spow. rewrite power_1 by apply Rabs_pos. simpl. now rewrite sign_Rabs.
Qed.

Lemma spow_unit (v e : R) :
  -1 <= v <= 1 -> 0 < e -> exists r, spow v e = Finite r /\ -1 <= r <= 1.
Proof.
  intros Hv He. unfold spow.
  destruct (power_unit (Rabs v) e) as [r [-> Hr]]; [|exact He|].
  - split; [apply Rabs_pos|]. apply Rabs_le. lra.
  - exists (sign v * r). split; [reflexivity|].
    pose proof (sign_bound v). nra.
Qed.

End Elements.

(** ** The generator, unfolded *)

Section Generator.

Local Open Scope R_scope.

Lemma linspace_samples (lo hi : R) (n : Z) :
  (2 <= n)%Z -> linspace lo hi n = Ok (map (uniform_sample lo hi n) (range n)).
Proof.
  intros Hn. unfold linspace.
  destruct (Z.ltb_spec n 0); [lia|].
  destruct (Z.ltb_spec 0 (n - 1)); [|lia].
  reflexivity.
Qed.

(** The last sample is the end of the interval, the value numpy stores
    there. *)
Lemma linspace_last (lo hi : R) (n : Z) :
  (2 <= n)%Z -> uniform_sample lo hi n (n - 1) = hi.
Proof.
  intros Hn. unfold uniform_sample. field.
  apply not_0_IZR. lia.
Qed.

Lemma linspace_first (lo hi : R) (n : Z) : uniform_sample lo hi n 0 = lo.
Proof. unfold uniform_sample. lra. Qed.

Lemma faces_loop_cells (n : Z) : faces_loop n = cell_faces n.
Proof.
  unfold faces_loop, cell_faces.
  rewrite (fold_left_app_flat_map _
             (fun i => flat_map (fun j => cell_triangles n i j) (range (n - 1)))).
  - reflexivity.
  - intros acc i. apply fold_left_app_flat_map.
    intros acc' j. unfold cell_triangles. now rewrite <- app_assoc.
Qed.

Lemma code_point_eq (a1 a2 a3 e1 e2 p t : R) :
  (fmul (fmul (fmul (Finite (a1 * sign (cos p))) (power (Rabs (cos p)) e1))
              (Finite (sign (cos t))))
        (power (Rabs (cos t)) e2),
   fmul (fmul (fmul (Finite (a2 * sign (cos p))) (power (Rabs (cos p)) e1))
              (Finite (sign (sin t))))
        (power (Rabs (sin t)) e2),
   fmul (Finite (a3 * sign (sin p))) (power (Rabs (sin p)) e1))
  = sq_point a1 a2 a3 e1 e2 p t.
Proof.
  unfold sq_point, spow. rewrite <- !fmul_Finite, !fmul_assoc. reflexivity.
Qed.

Lemma generate_grid (a1 a2 a3 e1 e2 : R) (n : Z) :
  (2 <= n)%Z ->
  generate_superquadric_mesh a1 a2 a3 e1 e2 n
  = Ok (grid_vertices a1 a2 a3 e1 e2 n, cell_faces n).
Proof.
  intros Hn. unfold generate_superquadric_mesh.
  rewrite !linspace_samples by exact Hn. cbn [bind].
  rewrite meshgrid_tab, faces_loop_cells.
  unfold np_mul, np_power, np_abs, np_sign, np_cos, np_sin, fin, scal.
  repeat (rewrite gmap_tab || rewrite gzip_tab).
  rewrite !flatten_tab, vstack_T_flat_map.
  unfold grid_vertices, phi_at, theta_at.
  rewrite flat_map_concat_map, map_map, <- flat_map_concat_map.
  f_equal. apply f_equal2; [|reflexivity]. apply flat_map_ext. intros j.
  rewrite map_map. apply map_ext. intros i.
  apply code_point_eq.
Qed.

Lemma length_grid_vertices (a1 a2 a3 e1 e2 : R) (n : Z) :
  length (grid_vertices a1 a2 a3 e1 e2 n) = (Z.to_nat n * Z.to_nat n)%nat.
Proof.
  unfold grid_vertices.
  rewrite (length_flat_map_uniform _ (Z.to_nat n)), length_range; [reflexivity|].
  intros j. now rewrite length_map, length_range.
Qed.

Lemma nth_error_grid_vertices (a1 a2 a3 e1 e2 : R) (n i j : Z) :
  (0 <= i < n)%Z -> (0 <= j < n)%Z ->
  nth_error (grid_vertices a1 a2 a3 e1 e2 n) (Z.to_nat (i * n + j))
  = Some (sq_point a1 a2 a3 e1 e2 (phi_at n j) (theta_at n i)).
Proof.
  intros Hi Hj. unfold grid_vertices.
  replace (Z.to_nat (i * n + j))
    with (Z.to_nat i * Z.to_nat n + Z.to_nat j)%nat by nia.
  rewrite (nth_error_flat_map_uniform _ (Z.to_nat n)).
  - rewrite nth_error_range by lia.
    rewrite nth_error_map, nth_error_range by lia.
    simpl. now rewrite !Z2Nat.id by lia.
  - intros k. now rewrite length_map, length_range.
  - lia.
Qed.

Lemma length_cell_faces (n : Z) :
  length (cell_faces n) = (2 * (Z.to_nat (n - 1) * Z.to_nat (n - 1)))%nat.
Proof.
  unfold cell_faces.
  rewrite (length_flat_map_uniform _ (Z.to_nat (n - 1) * 2)), length_range; [lia|].
  intros i. rewrite (length_flat_map_uniform _ 2), length_range; [reflexivity|].
  intros j. reflexivity.
Qed.

Lemma In_cell_faces (n : Z) (f : face) :
  In f (cell_faces n) <->
  exists i j, (0 <= i <= n - 2)%Z /\ (0 <= j <= n - 2)%Z /\
              In f (cell_triangles n i j).
Proof.
  unfold cell_faces. rewrite in_flat_map. split.
  - intros [i [Hi Hf]]. apply in_flat_map in Hf. destruct Hf as [j [Hj Hf]].
    apply In_range in Hi, Hj. exists i, j. repeat split; try lia. exact Hf.
  - intros [i [j [Hi [Hj Hf]]]]. exists i. split; [apply In_range; lia|].
    apply in_flat_map. exists j. split; [apply In_range; lia|exact Hf].
Qed.

End Generator.

(** ** Grid pairs and cell corners *)

Section Cells.

Lemma map_flat_map {A B C : Type} (f : B -> C) (g : A -> list B) (l : list A) :
  map f (flat_map g l) = flat_map (fun a => map f (g a)) l.
Proof.
  induction l as [|a l IH]; simpl; [reflexivity|].
  now rewrite map_app, IH.
Qed.

Lemma NoDup_pairs {A B : Type} (xs : list A) (ys : list B) :
  NoDup xs -> NoDup ys ->
  NoDup (flat_map (fun y => map (fun x => (x, y)) xs) ys).
Proof.
  intros Hxs Hys. induction Hys as [|y ys Hy Hys IH]; simpl; [constructor|].
  apply NoDup_app.
  - apply Stdlib.Lists.Finite.Injective_map_NoDup; [|exact Hxs].
    intros x x' Heq. now injection Heq.
  - exact IH.
  - intros [x y'] Hin Hin'. apply in_map_iff in Hin.
    destruct Hin as [x' [Heq _]]. injection Heq as <- <-.
    apply in_flat_map in Hin'. destruct Hin' as [y'' [Hy'' Hin']].
    apply in_map_iff in Hin'. destruct Hin' as [x'' [Heq' _]].
    injection Heq' as _ <-. contradiction.
Qed.

Lemma grid_vertices_pairs (a1 a2 a3 e1 e2 : R) (n : Z) :
  grid_vertices a1 a2 a3 e1 e2 n
  = map (fun p => sq_point a1 a2 a3 e1 e2 (phi_at n (fst p)) (theta_at n (snd p)))
        (grid_pairs n).
Proof.
  unfold grid_vertices, grid_pairs. rewrite map_flat_map.
  apply flat_map_ext. intros j. now rewrite map_map.
Qed.

Lemma In_grid_pairs (n i j : Z) :
  In (i, j) (grid_pairs n) <-> (0 <= i < n)%Z /\ (0 <= j < n)%Z.
Proof.
  unfold grid_pairs. rewrite in_flat_map. split.
  - intros [j' [Hj' Hin]]. apply in_map_iff in Hin.
    destruct Hin as [i' [Heq Hi']]. injection Heq as <- <-.
    apply In_range in Hj', Hi'. split; assumption.
  - intros [Hi Hj]. exists j. split; [now apply In_range|].
    apply in_map_iff. exists i. split; [reflexivity|now apply In_range].
Qed.

Lemma NoDup_grid_pairs (n : Z) : NoDup (grid_pairs n).
Proof. apply NoDup_pairs; apply NoDup_range. Qed.

End Cells.

Section Corners.

Local Open Scope Z_scope.

(** Every index of a triangle of cell [(i, j)] is one of the four corners
    [(i + c, j + d)], [c, d] in [{0, 1}], of that cell. *)
Lemma cell_corner (n i j : Z) (f : face) (k : Z) :
  In f (cell_triangles n i j) -> In k (face_indices f) ->
  exists c d, (c = 0 \/ c = 1) /\ (d = 0 \/ d = 1) /\ k = (i + c) * n + (j + d).
Proof.
  unfold cell_triangles. simpl.
  intros [<-|[<-|[]]]; simpl; intros [<-|[<-|[<-|[]]]].
  - exists 0, 0. repeat split; auto; lia.
  - exists 0, 1. repeat split; auto; lia.
  - exists 1, 0. repeat split; auto; lia.
  - exists 0, 1. repeat split; auto; lia.
  - exists 1, 1. repeat split; auto; lia.
  - exists 1, 0. repeat split; auto; lia.
Qed.

Lemma row_col (n q r : Z) :
  0 <= r < n -> (q * n + r) / n = q /\ (q * n + r) mod n = r.
Proof.
  intros Hr. split.
  - symmetry. apply (Z.div_unique _ n q r); lia.
  - symmetry. apply (Z.mod_unique _ n q r); lia.
Qed.

End Corners.

(* ================================================================== *)
(** ** Properties of the generated mesh *)

Section MeshProperties.

Local Open Scope R_scope.

(** C1. For [n >= 2] the generator succeeds and its vertex sequence is the
    image, under the closed-form superquadric point with the
    sign-preserving power, of a list of (phi index, theta index) pairs in
    which every pair of the [n] by [n] grid occurs exactly once; phi runs
    over [n] uniform samples from [-pi/2] to [pi/2] and theta over [n]
    uniform samples from [-pi] to [pi]. *)
Theorem vertices_closed_form (a1 a2 a3 e1 e2 : R) (n : Z) :
  (2 <= n)%Z ->
  exists vs fs pairs,
    generate_superquadric_mesh a1 a2 a3 e1 e2 n = Ok (vs, fs)
    /\ vs = map (fun p => sq_point a1 a2 a3 e1 e2
                            (phi_at n (fst p)) (theta_at n (snd p))) pairs
    /\ NoDup pairs
    /\ (forall i j, In (i, j) pairs <-> (0 <= i < n)%Z /\ (0 <= j < n)%Z)
    /\ (phi_at n 0 = - PI / 2 /\ phi_at n (n - 1) = PI / 2)
    /\ (theta_at n 0 = - PI /\ theta_at n (n - 1) = PI)
    /\ (forall i, phi_at n (i + 1) - phi_at n i = PI / IZR (n - 1))
    /\ (forall j, theta_at n (j + 1) - theta_at n j = 2 * PI / IZR (n - 1)).
Proof.
  intros Hn.
  exists (grid_vertices a1 a2 a3 e1 e2 n), (cell_faces n), (grid_pairs n).
  assert (Hd : IZR (n - 1) <> 0) by (apply not_0_IZR; lia).
  split; [now apply generate_grid|].
  split; [apply grid_vertices_pairs|].
  split; [apply NoDup_grid_pairs|].
  split; [intros i j; apply In_grid_pairs|].
  unfold phi_at, theta_at.
  split; [split; [apply linspace_first|now apply linspace_last]|].
  split; [split; [apply linspace_first|now apply linspace_last]|].
  split; intros k; unfold uniform_sample; rewrite plus_IZR; field; exact Hd.
Qed.

Lemma vertices_closed_form_witness :
  (2 <= 3)%Z /\
  exists vs fs pairs,
    generate_superquadric_mesh 2 3 4 (1 / 2) (3 / 2) 3 = Ok (vs, fs)
    /\ vs = map (fun p => sq_point 2 3 4 (1 / 2) (3 / 2)
                            (phi_at 3 (fst p)) (theta_at 3 (snd p))) pairs
    /\ NoDup pairs
    /\ (forall i j, In (i, j) pairs <-> (0 <= i < 3)%Z /\ (0 <= j < 3)%Z)
    /\ (phi_at 3 0 = - PI / 2 /\ phi_at 3 (3 - 1) = PI / 2)
    /\ (theta_at 3 0 = - PI /\ theta_at 3 (3 - 1) = PI)
    /\ (forall i, phi_at 3 (i + 1) - phi_at 3 i = PI / IZR (3 - 1))
    /\ (forall j, theta_at 3 (j + 1) - theta_at 3 j = 2 * PI / IZR (3 - 1)).
Proof.
  split; [lia|]. apply (vertices_closed_form 2 3 4 (1 / 2) (3 / 2) 3). lia.
Defined.

Lemma sq_point_sphere (p t : R) :
  sq_point 1 1 1 1 1 p t
  = (Finite (cos p * cos t), Finite (cos p * sin t), Finite (sin p)).
Proof.
  unfold sq_point. rewrite !spow_1. simpl. now rewrite !Rmult_1_l.
Qed.

Lemma In_grid_vertices (a1 a2 a3 e1 e2 : R) (n : Z) (v : vertex) :
  In v (grid_vertices a1 a2 a3 e1 e2 n) ->
  exists p t, v = sq_point a1 a2 a3 e1 e2 p t.
Proof.
  rewrite grid_vertices_pairs, in_map_iff. intros [[i j] [<- _]].
  now exists (phi_at n i), (theta_at n j).
Qed.

(** C2. For [n >= 2] the generator returns [n^2] vertices and
    [2 * (n - 1)^2] faces; [generate_superquadric_mesh(1, 1, 1, 1, 1, 4)]
    returns 16 vertices and 18 faces, every coordinate a finite number of
    [[-1, 1]]. *)
Theorem mesh_counts (a1 a2 a3 e1 e2 : R) (n : Z) :
  (2 <= n)%Z ->
  (exists vs fs,
     generate_superquadric_mesh a1 a2 a3 e1 e2 n = Ok (vs, fs)
     /\ Z.of_nat (length vs) = (n ^ 2)%Z
     /\ Z.of_nat (length fs) = (2 * (n - 1) ^ 2)%Z)
  /\
  (exists vs fs,
     generate_superquadric_mesh 1 1 1 1 1 4 = Ok (vs, fs)
     /\ length vs = 16%nat
     /\ length fs = 18%nat
     /\ forall v c, In v vs -> In c (coords v) ->
          exists r, c = Finite r /\ -1 <= r <= 1).
Proof.
  intros Hn. split.
  - exists (grid_vertices a1 a2 a3 e1 e2 n), (cell_faces n).
    split; [now apply generate_grid|].
    rewrite length_grid_vertices, length_cell_faces. split; nia.
  - exists (grid_vertices 1 1 1 1 1 4), (cell_faces 4).
    split; [apply generate_grid; lia|].
    split; [now rewrite length_grid_vertices|].
    split; [now rewrite length_cell_faces|].
    intros v c Hv Hc. apply In_grid_vertices in Hv. destruct Hv as [p [t ->]].
    rewrite sq_point_sphere in Hc. simpl in Hc.
    pose proof (COS_bound p). pose proof (COS_bound t).
    pose proof (SIN_bound p). pose proof (SIN_bound t).
    destruct Hc as [<-|[<-|[<-|[]]]]; eexists; (split; [reflexivity|]); nra.
Qed.

Lemma mesh_counts_witness :
  (2 <= 50)%Z /\
  ((exists vs fs,
      generate_superquadric_mesh 2 3 4 (1 / 2) (3 / 2) 50 = Ok (vs, fs)
      /\ Z.of_nat (length vs) = (50 ^ 2)%Z
      /\ Z.of_nat (length fs) = (2 * (50 - 1) ^ 2)%Z)
   /\
   (exists vs fs,
      generate_superquadric_mesh 1 1 1 1 1 4 = Ok (vs, fs)
      /\ length vs = 16%nat
      /\ length fs = 18%nat
      /\ forall v c, In v vs -> In c (coords v) ->
           exists r, c = Finite r /\ -1 <= r <= 1)).
Proof.
  split; [lia|]. apply (mesh_counts 2 3 4 (1 / 2) (3 / 2) 50). lia.
Defined.

(** C3. For [n >= 2] the face list is, cell by cell for [i] then [j] in
    [[0, n-2]] and [idx = i * n + j], the two triangles
    [(idx, idx+1, idx+n)] and [(idx+1, idx+n+1, idx+n)]; no face is
    stitched across a seam: any two indices of a face lie in the same or in
    neighbouring grid rows and columns. *)
Theorem faces_cell_by_cell (a1 a2 a3 e1 e2 : R) (n : Z) :
  (2 <= n)%Z ->
  exists vs fs,
    generate_superquadric_mesh a1 a2 a3 e1 e2 n = Ok (vs, fs)
    /\ fs = flat_map
              (fun i =>
                 flat_map
                   (fun j =>
                      let idx := (i * n + j)%Z in
                      [(idx, idx + 1, idx + n)%Z;
                       (idx + 1, idx + n + 1, idx + n)%Z])
                   (range (n - 1)))
              (range (n - 1))
    /\ (forall i, In i (range (n - 1)) <-> (0 <= i <= n - 2)%Z)
    /\ (forall f u v, In f fs -> In u (face_indices f) -> In v (face_indices f) ->
          (Z.abs (u mod n - v mod n) <= 1)%Z /\ (Z.abs (u / n - v / n) <= 1)%Z).
Proof.
  intros Hn. exists (grid_vertices a1 a2 a3 e1 e2 n), (cell_faces n).
  split; [now apply generate_grid|].
  split; [reflexivity|].
  split; [intros i; rewrite In_range; lia|].
  intros f u v Hf Hu Hv. apply In_cell_faces in Hf.
  destruct Hf as [i [j [Hi [Hj Hf]]]].
  destruct (cell_corner n i j f u Hf Hu) as [cu [du [Hcu [Hdu ->]]]].
  destruct (cell_corner n i j f v Hf Hv) as [cv [dv [Hcv [Hdv ->]]]].
  destruct (row_col n (i + cu) (j + du)) as [-> ->]; [lia|].
  destruct (row_col n (i + cv) (j + dv)) as [-> ->]; [lia|].
  lia.
Qed.

Lemma faces_cell_by_cell_witness :
  (2 <= 3)%Z /\
  exists vs fs,
    generate_superquadric_mesh 1 1 1 1 1 3 = Ok (vs, fs)
    /\ fs = flat_map
              (fun i =>
                 flat_map
                   (fun j =>
                      let idx := (i * 3 + j)%Z in
                      [(idx, idx + 1, idx + 3)%Z;
                       (idx + 1, idx + 3 + 1, idx + 3)%Z])
                   (range (3 - 1)))
              (range (3 - 1))
    /\ (forall i, In i (range (3 - 1)) <-> (0 <= i <= 3 - 2)%Z)
    /\ (forall f u v, In f fs -> In u (face_indices f) -> In v (face_indices f) ->
          (Z.abs (u mod 3 - v mod 3) <= 1)%Z /\ (Z.abs (u / 3 - v / 3) <= 1)%Z).
Proof.
  split; [lia|]. apply (faces_cell_by_cell 1 1 1 1 1 3). lia.
Defined.

(** C4. For [n >= 2] every index of every returned face lies in
    [[0, n^2)] and addresses a vertex of the returned vertex sequence. *)
Theorem face_indices_valid (a1 a2 a3 e1 e2 : R) (n : Z) :
  (2 <= n)%Z ->
  exists vs fs,
    generate_superquadric_mesh a1 a2 a3 e1 e2 n = Ok (vs, fs)
    /\ forall f k, In f fs -> In k (face_indices f) ->
         (0 <= k < n ^ 2)%Z /\ exists v, nth_error vs (Z.to_nat k) = Some v.
Proof.
  intros Hn. exists (grid_vertices a1 a2 a3 e1 e2 n), (cell_faces n).
  split; [now apply generate_grid|].
  intros f k Hf Hk. apply In_cell_faces in Hf.
  destruct Hf as [i [j [Hi [Hj Hf]]]].
  destruct (cell_corner n i j f k Hf Hk) as [c [d [Hc [Hd ->]]]].
  split; [nia|].
  rewrite nth_error_grid_vertices by lia. eexists. reflexivity.
Qed.

Lemma face_indices_valid_witness :
  (2 <= 4)%Z /\
  exists vs fs,
    generate_superquadric_mesh 1 2 3 1 (1 / 2) 4 = Ok (vs, fs)
    /\ forall f k, In f fs -> In k (face_indices f) ->
         (0 <= k < 4 ^ 2)%Z /\ exists v, nth_error vs (Z.to_nat k) = Some v.
Proof.
  split; [lia|]. apply (face_indices_valid 1 2 3 1 (1 / 2) 4). lia.
Defined.

(** C6, as stated, fails: with two samples per sweep the vertex at flat
    index [0 * 2 + 1] is the point at [(phi_1, theta_0)], the north pole
    [(0, 0, 1)], not the point at [(phi_0, theta_1)], the south pole. *)
Lemma rows_by_phi_fails : ~ rows_by_phi 1 1 1 1 1 2.
Proof.
  intros H.
  specialize (H _ _ 0%Z 1%Z (generate_grid 1 1 1 1 1 2 ltac:(lia))
                ltac:(lia) ltac:(lia)).
  rewrite nth_error_grid_vertices in H by lia.
  rewrite !sq_point_sphere in H. injection H as _ _ Hz.
  unfold phi_at, uniform_sample in Hz. simpl (2 - 1)%Z in Hz.
  replace (- PI / 2 + 1 * ((PI / 2 - - PI / 2) / 1)) with (PI / 2) in Hz by field.
  replace (- PI / 2 + 0 * ((PI / 2 - - PI / 2) / 1)) with (- (PI / 2)) in Hz by field.
  rewrite sin_neg, sin_PI2 in Hz. lra.
Qed.

(** C6, amended. For [n >= 2] the flattened vertex sequence is row-major
    with rows indexed by the theta sweep and columns by the phi sweep: the
    vertex at flat index [i * n + j] is the surface point at
    [(phi_j, theta_i)]. *)
Theorem rows_by_theta (a1 a2 a3 e1 e2 : R) (n : Z) :
  (2 <= n)%Z ->
  exists vs fs,
    generate_superquadric_mesh a1 a2 a3 e1 e2 n = Ok (vs, fs)
    /\ forall i j, (0 <= i < n)%Z -> (0 <= j < n)%Z ->
         nth_error vs (Z.to_nat (i * n + j))
         = Some (sq_point a1 a2 a3 e1 e2 (phi_at n j) (theta_at n i)).
Proof.
  intros Hn. exists (grid_vertices a1 a2 a3 e1 e2 n), (cell_faces n).
  split; [now apply generate_grid|].
  intros i j Hi Hj. now apply nth_error_grid_vertices.
Qed.

Lemma rows_by_theta_witness :
  (2 <= 2)%Z /\
  exists vs fs,
    generate_superquadric_mesh 1 1 1 1 1 2 = Ok (vs, fs)
    /\ forall i j, (0 <= i < 2)%Z -> (0 <= j < 2)%Z ->
         nth_error vs (Z.to_nat (i * 2 + j))
         = Some (sq_point 1 1 1 1 1 (phi_at 2 j) (theta_at 2 i)).
Proof.
  split; [lia|]. apply (rows_by_theta 1 1 1 1 1 2). lia.
Defined.

(** C7. For [n >= 2] every vertex of
    [generate_superquadric_mesh(1, 1, 1, 1, 1, n)] has finite coordinates
    and Euclidean norm 1 over the reals. *)
Theorem unit_sphere (n : Z) :
  (2 <= n)%Z ->
  exists vs fs,
    generate_superquadric_mesh 1 1 1 1 1 n = Ok (vs, fs)
    /\ forall v, In v vs ->
         exists x y z, v = (Finite x, Finite y, Finite z)
                       /\ sqrt (x * x + y * y + z * z) = 1.
Proof.
  intros Hn. exists (grid_vertices 1 1 1 1 1 n), (cell_faces n).
  split; [now apply generate_grid|].
  intros v Hv. apply In_grid_vertices in Hv. destruct Hv as [p [t ->]].
  rewrite sq_point_sphere.
  exists (cos p * cos t), (cos p * sin t), (sin p). split; [reflexivity|].
  pose proof (sin2_cos2 p) as Hp. pose proof (sin2_cos2 t) as Ht.
  unfold Rsqr in Hp, Ht.
  replace (cos p * cos t * (cos p * cos t) + cos p * sin t * (cos p * sin t)
           + sin p * sin p)
    with (cos p * cos p * (sin t * sin t + cos t * cos t) + sin p * sin p)
    by ring.
  rewrite Ht, Rmult_1_r, Rplus_comm, Hp. apply sqrt_1.
Qed.

Lemma unit_sphere_witness :
  (2 <= 50)%Z /\
  exists vs fs,
    generate_superquadric_mesh 1 1 1 1 1 50 = Ok (vs, fs)
    /\ forall v, In v vs ->
         exists x y z, v = (Finite x, Finite y, Finite z)
                       /\ sqrt (x * x + y * y + z * z) = 1.
Proof.
  split; [lia|]. apply (unit_sphere 50). lia.
Defined.

(** The array power does leave the finite reals on a negative base under
    a fractional exponent: the absolute value under [**] matters. *)
Lemma power_negative_fractional : power (-1) (1 / 2) = NotFinite.
Proof.
  unfold power.
  destruct (Rlt_dec 0 (-1)) as [H|_]; [lra|].
  destruct (Req_dec_T (-1) 0) as [H|_]; [lra|].
  destruct (Req_dec_T (1 / 2) (IZR (Int_part (1 / 2)))) as [H|_]; [|reflexivity].
  exfalso. rewrite <- (Int_part_spec (1 / 2) 0) in H; simpl; lra.
Qed.

(** Under positive exponents the closed-form point is finite and stays in
    the box of the semi-axes. *)
Lemma sq_point_finite (a1 a2 a3 e1 e2 p t : R) :
  0 < a1 -> 0 < a2 -> 0 < a3 -> 0 < e1 -> 0 < e2 ->
  exists x y z,
    sq_point a1 a2 a3 e1 e2 p t = (Finite x, Finite y, Finite z)
    /\ - a1 <= x <= a1 /\ - a2 <= y <= a2 /\ - a3 <= z <= a3.
Proof.
  intros Ha1 Ha2 Ha3 He1 He2. unfold sq_point.
  destruct (spow_unit (cos p) e1 (COS_bound p) He1) as [cp [-> Hcp]].
  destruct (spow_unit (sin p) e1 (SIN_bound p) He1) as [sp [-> Hsp]].
  destruct (spow_unit (cos t) e2 (COS_bound t) He2) as [ct [-> Hct]].
  destruct (spow_unit (sin t) e2 (SIN_bound t) He2) as [st [-> Hst]].
  simpl. exists (a1 * cp * ct), (a2 * cp * st), (a3 * sp).
  split; [reflexivity|].
  assert (-1 <= cp * ct <= 1) by nra.
  assert (-1 <= cp * st <= 1) by nra.
  rewrite !Rmult_assoc. repeat split; nra.
Qed.

(** C8. For positive semi-axes, [n >= 2] and exponents anywhere in
    [[0.1, 1.9]], the edges included, every coordinate of every vertex is a
    finite real (and bounded by its semi-axis): the power is only ever
    taken of an absolute value. *)
Theorem finite_on_exponent_domain (a1 a2 a3 e1 e2 : R) (n : Z) :
  0 < a1 -> 0 < a2 -> 0 < a3 -> (2 <= n)%Z ->
  1 / 10 <= e1 <= 19 / 10 -> 1 / 10 <= e2 <= 19 / 10 ->
  exists vs fs,
    generate_superquadric_mesh a1 a2 a3 e1 e2 n = Ok (vs, fs)
    /\ forall v, In v vs ->
         exists x y z, v = (Finite x, Finite y, Finite z)
                       /\ - a1 <= x <= a1 /\ - a2 <= y <= a2 /\ - a3 <= z <= a3.
Proof.
  intros Ha1 Ha2 Ha3 Hn He1 He2.
  exists (grid_vertices a1 a2 a3 e1 e2 n), (cell_faces n).
  split; [now apply generate_grid|].
  intros v Hv. apply In_grid_vertices in Hv. destruct Hv as [p [t ->]].
  apply sq_point_finite; lra.
Qed.

Lemma finite_on_exponent_domain_witness :
  (0 < 2 /\ 0 < 3 /\ 0 < 4 /\ (2 <= 50)%Z
   /\ 1 / 10 <= 1 / 10 <= 19 / 10 /\ 1 / 10 <= 19 / 10 <= 19 / 10) /\
  exists vs fs,
    generate_superquadric_mesh 2 3 4 (1 / 10) (19 / 10) 50 = Ok (vs, fs)
    /\ forall v, In v vs ->
         exists x y z, v = (Finite x, Finite y, Finite z)
                       /\ - 2 <= x <= 2 /\ - 3 <= y <= 3 /\ - 4 <= z <= 4.
Proof.
  split; [repeat split; try lra; lia|].
  apply (finite_on_exponent_domain 2 3 4 (1 / 10) (19 / 10) 50); try lra; lia.
Defined.

Lemma fmul_1_l (x : float) : fmul (Finite 1) x = x.
Proof. destruct x; simpl; [now rewrite Rmult_1_l|reflexivity]. Qed.

Lemma sq_point_scale (a1 a2 a3 e1 e2 p t : R) :
  sq_point a1 a2 a3 e1 e2 p t
  = scale_vertex a1 a2 a3 (sq_point 1 1 1 e1 e2 p t).
Proof.
  unfold sq_point, scale_vertex. now rewrite !fmul_1_l, !fmul_assoc.
Qed.

Section OnDoubles.

Import PrimFloat.
Local Open Scope float_scope.

(** C10, as stated, fails on doubles: the program multiplies by the
    semi-axis first, [(((a2 * s1) * p1) * s2) * p2], and the roundings of
    that chain differ from those of [a2 * ((((1 * s1) * p1) * s2) * p2)].
    At resolution 2 with unit exponents and [a2 = 5], the [y] of vertex 0
    is [-3.7493994566546446e-32], while 5 times the [y] of vertex 0 of the
    unit mesh is [-3.749399456654644e-32]. *)
Lemma scaling_fails_on_doubles :
  ~ Doubles.scaling Doubles.numpy_at_resolution_2
      1 5 1 1 1 2.
Proof.
  intros H.
  destruct (Doubles.generate_superquadric_mesh
              Doubles.numpy_at_resolution_2
              1 5 1 1 1 2)
    as [[vs fs]|e] eqn:G; [|vm_compute in G; discriminate].
  destruct (Doubles.generate_superquadric_mesh
              Doubles.numpy_at_resolution_2
              1 1 1 1 1 2)
    as [[vs1 fs1]|e] eqn:G1; [|vm_compute in G1; discriminate].
  pose (Y := fun r : result (list Doubles.vertex * list face) =>
               match r with
               | Ok (v, _) =>
                   match nth_error v 0 with
                   | Some (_, b, _) => Some b
                   | None => None
                   end
               | Err _ => None
               end).
  pose (gen5 := Doubles.generate_superquadric_mesh
                  Doubles.numpy_at_resolution_2 1 5 1 1 1 2).
  pose (gen1 := Doubles.generate_superquadric_mesh
                  Doubles.numpy_at_resolution_2 1 1 1 1 1 2).
  destruct (Y gen1) as [y|] eqn:E1; [|vm_compute in E1; discriminate].
  assert (E5 : Y gen5 = Some (5 * y)).
  { pose proof E1 as K1. unfold gen1 in K1. rewrite G1 in K1.
    unfold Y in K1. cbv beta iota in K1.
    destruct (nth_error vs1 0) as [[[x y'] z]|] eqn:K; [|discriminate K1].
    assert (y' = y) by congruence. subst y'.
    unfold gen5. rewrite G. unfold Y. cbv beta iota.
    rewrite (H vs fs vs1 fs1 0%nat x y z G G1 K). reflexivity. }
  apply (f_equal (fun o => match o with Some v => v | None => 0 end))
    in E1.
  rewrite <- E1 in E5.
  apply (f_equal (fun o => match o, Y gen5 with
                           | Some v, Some w => PrimFloat.eqb v w
                           | _, _ => false
                           end)) in E5.
  vm_compute in E5. discriminate.
Qed.

End OnDoubles.

(** C10, amended. For [n >= 2] the faces do not depend on the semi-axes or
    the exponents, and over the reals the vertices are those of the
    unit-axes mesh scaled componentwise: vertex [k] of
    [generate(a1, a2, a3, e1, e2, n)] is [(a1 * x, a2 * y, a3 * z)] for
    vertex [k = (x, y, z)] of [generate(1, 1, 1, e1, e2, n)].  (On doubles
    the two sides round differently, as shown above; the faces are lists
    of integers and are the same there.) *)
Theorem faces_fixed_vertices_scale
    (a1 a2 a3 e1 e2 a1' a2' a3' e1' e2' : R) (n : Z) :
  (2 <= n)%Z ->
  exists vs fs vs' vs1,
    generate_superquadric_mesh a1 a2 a3 e1 e2 n = Ok (vs, fs)
    /\ generate_superquadric_mesh a1' a2' a3' e1' e2' n = Ok (vs', fs)
    /\ generate_superquadric_mesh 1 1 1 e1 e2 n = Ok (vs1, fs)
    /\ length vs = length vs1
    /\ forall k v, nth_error vs1 k = Some v ->
         nth_error vs k = Some (scale_vertex a1 a2 a3 v).
Proof.
  intros Hn.
  exists (grid_vertices a1 a2 a3 e1 e2 n), (cell_faces n),
         (grid_vertices a1' a2' a3' e1' e2' n), (grid_vertices 1 1 1 e1 e2 n).
  split; [now apply generate_grid|].
  split; [now apply generate_grid|].
  split; [now apply generate_grid|].
  split; [now rewrite !length_grid_vertices|].
  intros k v Hk.
  rewrite (grid_vertices_pairs a1), (grid_vertices_pairs 1) in *.
  rewrite nth_error_map in *.
  destruct (nth_error (grid_pairs n) k) as [[i j]|]; simpl in *; [|discriminate].
  injection Hk as <-. now rewrite sq_point_scale.
Qed.

Lemma faces_fixed_vertices_scale_witness :
  (2 <= 50)%Z /\
  exists vs fs vs' vs1,
    generate_superquadric_mesh 2 3 4 (1 / 2) (3 / 2) 50 = Ok (vs, fs)
    /\ generate_superquadric_mesh 5 6 7 1 (1 / 10) 50 = Ok (vs', fs)
    /\ generate_superquadric_mesh 1 1 1 (1 / 2) (3 / 2) 50 = Ok (vs1, fs)
    /\ length vs = length vs1
    /\ forall k v, nth_error vs1 k = Some v ->
         nth_error vs k = Some (scale_vertex 2 3 4 v).
Proof.
  split; [lia|].
  apply (faces_fixed_vertices_scale 2 3 4 (1 / 2) (3 / 2) 5 6 7 1 (1 / 10) 50).
  lia.
Defined.

End MeshProperties.

(* ================================================================== *)
(** ** Properties of the persistence *)

Section Persistence.

Import String Json Gui GuiSpec.
Local Open Scope string_scope.
Local Open Scope list_scope.

Lemma saved_superquadrics_filter (sqs : list Superquadric) :
  saved_superquadrics sqs = map sq_data (filter nonzero_axes sqs).
Proof.
  unfold saved_superquadrics.
  rewrite (fold_left_app_flat_map _
             (fun sq => if nonzero_axes sq then [sq_data sq] else [])).
  - simpl. induction sqs as [|sq sqs IH]; simpl; [reflexivity|].
    destruct (nonzero_axes sq); simpl; now rewrite IH.
  - intros acc sq. unfold nonzero_axes.
    destruct (is_zero (a1 sq)), (is_zero (a2 sq)), (is_zero (a3 sq)); simpl;
      now rewrite ?app_nil_r.
Qed.

Lemma nonzero_axes_spec (sq : Superquadric) :
  nonzero_axes sq = true <->
  ~ (a1 sq == 0)%Q /\ ~ (a2 sq == 0)%Q /\ ~ (a3 sq == 0)%Q.
Proof.
  unfold nonzero_axes, is_zero.
  rewrite !andb_true_iff, !negb_true_iff, <- !not_true_iff_false, !Qeq_bool_iff.
  tauto.
Qed.

Lemma save_object_ok (description : string) (sqs : list Superquadric)
    (fs : files) (old : list json) :
  stored_entries fs = Some old ->
  save_object description sqs fs
  = Ok (write OUTPUT_JSON
          (JArr (old ++ [JObj [("description", JStr description);
                               ("superquadrics", JArr (saved_superquadrics sqs))]]))
          fs).
Proof.
  unfold stored_entries, save_object, load.
  destruct (fs OUTPUT_JSON) as [[| | | |entries|]|]; try discriminate;
    intros H; injection H as <-; reflexivity.
Qed.

Lemma load_component_sq_data (sq : Superquadric) :
  load_component (sq_data sq) = Ok (rounded sq).
Proof. reflexivity. Qed.

Lemma load_loop_sq_data (sqs acc : list Superquadric) :
  fold_left
    (fun acc component =>
       superquadrics <- acc ;;
       sq <- load_component component ;;
       Ok (superquadrics ++ [sq]))
    (map sq_data sqs) (Ok acc)
  = Ok (acc ++ map rounded sqs).
Proof.
  revert acc. induction sqs as [|sq sqs IH]; intros acc; cbn [fold_left map].
  - now rewrite app_nil_r.
  - rewrite load_component_sq_data. cbn [bind].
    rewrite IH, <- app_assoc. reflexivity.
Qed.

Lemma reproduces_rounded (sqs : list Superquadric) :
  Forall2 reproduces sqs (map rounded sqs).
Proof.
  induction sqs as [|sq sqs IH]; simpl; constructor; [|exact IH].
  unfold reproduces, rounded. simpl. repeat split.
Qed.

(** C9. When the output file is absent or holds a list, [save_object]
    succeeds and the ["superquadrics"] list of the entry it appends holds
    the dictionaries of exactly the entries whose three semi-axes are all
    nonzero, in their original order. *)
Theorem save_object_omits_zero_axes (description : string)
    (sqs : list Superquadric) (fs : files) (old : list json) :
  stored_entries fs = Some old ->
  exists fs' saved,
    save_object description sqs fs = Ok fs'
    /\ fs' OUTPUT_JSON
       = Some (JArr (old ++ [JObj [("description", JStr description);
                                   ("superquadrics", JArr saved)]]))
    /\ saved = map sq_data (filter nonzero_axes sqs)
    /\ forall sq, In sq (filter nonzero_axes sqs) <->
         In sq sqs
         /\ ~ (a1 sq == 0)%Q /\ ~ (a2 sq == 0)%Q /\ ~ (a3 sq == 0)%Q.
Proof.
  intros Hold. eexists. exists (saved_superquadrics sqs).
  split; [apply save_object_ok; exact Hold|].
  split; [unfold write; now rewrite String.eqb_refl|].
  split; [apply saved_superquadrics_filter|].
  intros sq. rewrite filter_In, nonzero_axes_spec. reflexivity.
Qed.

Lemma save_object_omits_zero_axes_witness :
  stored_entries no_files = Some [] /\
  exists fs' saved,
    save_object "chair" [unit_sq; rounded unit_sq] no_files = Ok fs'
    /\ fs' OUTPUT_JSON
       = Some (JArr ([] ++ [JObj [("description", JStr "chair");
                                  ("superquadrics", JArr saved)]]))
    /\ saved = map sq_data (filter nonzero_axes [unit_sq; rounded unit_sq])
    /\ forall sq, In sq (filter nonzero_axes [unit_sq; rounded unit_sq]) <->
         In sq [unit_sq; rounded unit_sq]
         /\ ~ (a1 sq == 0)%Q /\ ~ (a2 sq == 0)%Q /\ ~ (a3 sq == 0)%Q.
Proof.
  split; [reflexivity|].
  apply (save_object_omits_zero_axes "chair" [unit_sq; rounded unit_sq]
           no_files []).
  reflexivity.
Defined.

(** C5, as stated, fails: the file [save_object] writes is a JSON list,
    which [load_superquadrics] indexes with ["components"]. *)
Lemma round_trip_fails : ~ round_trips "chair" [unit_sq] no_files.
Proof.
  intros [fs' [loaded [Hsave [Hload _]]]].
  rewrite (save_object_ok "chair" [unit_sq] no_files [] eq_refl) in Hsave.
  injection Hsave as <-.
  vm_compute in Hload. discriminate.
Qed.

(** C5, amended. For entries whose semi-axes are all nonzero (and an output
    file that is absent or holds a list), [save_object] succeeds and appends
    an object whose ["superquadrics"] list [load_superquadrics] reads back,
    once it is stored under the ["components"] key the loader expects, as
    entries with identical scale, position and rotation and with the
    exponents rounded to two decimals; the output file itself, a list at
    top level, is rejected by [load_superquadrics] with a [TypeError]. *)
Theorem save_then_load (description : string) (sqs : list Superquadric)
    (fs : files) (old : list json) :
  stored_entries fs = Some old ->
  forallb nonzero_axes sqs = true ->
  exists fs' saved,
    save_object description sqs fs = Ok fs'
    /\ fs' OUTPUT_JSON
       = Some (JArr (old ++ [JObj [("description", JStr description);
                                   ("superquadrics", JArr saved)]]))
    /\ load_superquadrics OUTPUT_JSON fs' = Err TypeError
    /\ forall name,
         exists loaded,
           load_superquadrics name
             (write name (JObj [("components", JArr saved)]) fs') = Ok loaded
           /\ Forall2 reproduces sqs loaded.
Proof.
  intros Hold Hnz. eexists. exists (saved_superquadrics sqs).
  split; [apply save_object_ok; exact Hold|].
  split; [unfold write; now rewrite String.eqb_refl|].
  split.
  - unfold load_superquadrics, load, write. now rewrite String.eqb_refl.
  - intros name. exists (map rounded sqs). split; [|apply reproduces_rounded].
    unfold load_superquadrics, load. unfold write at 1.
    rewrite String.eqb_refl. cbn [bind getitem_str lookup iter].
    rewrite String.eqb_refl.
    rewrite saved_superquadrics_filter.
    replace (filter nonzero_axes sqs) with sqs.
    + apply (load_loop_sq_data sqs []).
    + symmetry. apply forallb_filter_id. exact Hnz.
Qed.

Lemma save_then_load_witness :
  (stored_entries no_files = Some []
   /\ forallb nonzero_axes [unit_sq] = true) /\
  exists fs' saved,
    save_object "chair" [unit_sq] no_files = Ok fs'
    /\ fs' OUTPUT_JSON
       = Some (JArr ([] ++ [JObj [("description", JStr "chair");
                                  ("superquadrics", JArr saved)]]))
    /\ load_superquadrics OUTPUT_JSON fs' = Err TypeError
    /\ forall name,
         exists loaded,
           load_superquadrics name
             (write name (JObj [("components", JArr saved)]) fs') = Ok loaded
           /\ Forall2 reproduces [unit_sq] loaded.
Proof.
  split; [split; reflexivity|].
  apply (save_then_load "chair" [unit_sq] no_files []); reflexivity.
Defined.

End Persistence.

(* ================================================================== *)
(** ** More on loading and saving *)

Section Loading.

Import String Json Gui GuiSpec.
Local Open Scope string_scope.
Local Open Scope list_scope.

(** The loop of [load_superquadrics], once an error has occurred. *)
Lemma load_loop_err (items : list json) (e : exn) :
  fold_left
    (fun acc component =>
       superquadrics <- acc ;;
       sq <- load_component component ;;
       Ok (superquadrics ++ [sq]))
    items (Err e)
  = Err e.
Proof. induction items as [|c items IH]; simpl; [reflexivity|exact IH]. Qed.

Lemma load_loop_inv (items : list json) (acc sqs : list Superquadric) :
  fold_left
    (fun acc component =>
       superquadrics <- acc ;;
       sq <- load_component component ;;
       Ok (superquadrics ++ [sq]))
    items (Ok acc)
  = Ok sqs ->
  exists loaded,
    sqs = acc ++ loaded
    /\ Forall2 (fun c sq => load_component c = Ok sq) items loaded.
Proof.
  revert acc. induction items as [|c items IH]; intros acc H; cbn [fold_left] in H.
  - injection H as <-. exists []. split; [now rewrite app_nil_r|constructor].
  - cbn [bind] in H. destruct (load_component c) as [sq|e] eqn:Hc.
    + cbn [bind] in H. apply IH in H. destruct H as [loaded [-> HF]].
      exists (sq :: loaded). split; [now rewrite <- app_assoc|].
      constructor; assumption.
    + cbn [bind] in H. rewrite load_loop_err in H. discriminate.
Qed.

Lemma load_loop_ok (items : list json) (acc loaded : list Superquadric) :
  Forall2 (fun c sq => load_component c = Ok sq) items loaded ->
  fold_left
    (fun acc component =>
       superquadrics <- acc ;;
       sq <- load_component component ;;
       Ok (superquadrics ++ [sq]))
    items (Ok acc)
  = Ok (acc ++ loaded).
Proof.
  intros HF. revert acc.
  induction HF as [|c sq items loaded Hc HF IH]; intros acc; cbn [fold_left].
  - now rewrite app_nil_r.
  - cbn [bind]. rewrite Hc. cbn [bind]. rewrite IH, <- app_assoc. reflexivity.
Qed.

(** X1. A successful [load_superquadrics] means the file exists and holds
    an object whose ["components"] can be iterated, and the result has one
    entry per component, in order, each the outcome of loading that
    component. *)
Theorem load_superquadrics_ok_inv (filename : string) (fs : files)
    (sqs : list Superquadric) :
  load_superquadrics filename fs = Ok sqs ->
  exists fields components items,
    fs filename = Some (JObj fields)
    /\ lookup "components" fields = Some components
    /\ iter components = Ok items
    /\ Forall2 (fun c sq => load_component c = Ok sq) items sqs.
Proof.
  unfold load_superquadrics, load. intros H.
  destruct (fs filename) as [data|] eqn:Hfile; [|discriminate].
  cbn [bind] in H.
  destruct data as [| | | | |fields]; try discriminate.
  cbn [getitem_str] in H.
  destruct (lookup "components" fields) as [components|] eqn:Hkey; [|discriminate].
  cbn [bind] in H.
  destruct (iter components) as [items|e] eqn:Hiter; [|discriminate].
  cbn [bind] in H. apply load_loop_inv in H. destruct H as [loaded [-> HF]].
  exists fields, components, items. repeat split; assumption || reflexivity.
Qed.

Lemma load_superquadrics_ok_inv_witness :
  load_superquadrics "example.json"
    (write "example.json" (JObj [("components", JArr [sq_data unit_sq])]) no_files)
  = Ok [rounded unit_sq]
  /\ exists fields components items,
       write "example.json" (JObj [("components", JArr [sq_data unit_sq])])
             no_files "example.json" = Some (JObj fields)
       /\ lookup "components" fields = Some components
       /\ iter components = Ok items
       /\ Forall2 (fun c sq => load_component c = Ok sq) items [rounded unit_sq].
Proof.
  split; [reflexivity|].
  apply (load_superquadrics_ok_inv "example.json"
           (write "example.json" (JObj [("components", JArr [sq_data unit_sq])])
                  no_files)
           [rounded unit_sq]).
  reflexivity.
Defined.

(** X2. Loading is all or nothing: when the components before some
    component load and that component fails, [load_superquadrics] raises
    that component's error and returns no entries, whatever follows. *)
Theorem load_superquadrics_first_error (filename : string) (fs : files)
    (fields : list (string * json)) (before after : list json)
    (loaded : list Superquadric) (bad : json) (e : exn) :
  fs filename = Some (JObj fields) ->
  lookup "components" fields = Some (JArr (before ++ bad :: after)) ->
  Forall2 (fun c sq => load_component c = Ok sq) before loaded ->
  load_component bad = Err e ->
  load_superquadrics filename fs = Err e.
Proof.
  intros Hfile Hkey Hbefore Hbad. unfold load_superquadrics, load.
  rewrite Hfile. cbn [bind getitem_str]. rewrite Hkey. cbn [bind iter].
  rewrite fold_left_app, (load_loop_ok before [] loaded Hbefore).
  cbn [fold_left app bind]. rewrite Hbad. cbn [bind]. apply load_loop_err.
Qed.

Lemma load_superquadrics_first_error_witness :
  (write "example.json"
     (JObj [("components", JArr ([sq_data unit_sq] ++ JObj [] :: [sq_data unit_sq]))])
     no_files "example.json"
   = Some (JObj [("components",
                  JArr ([sq_data unit_sq] ++ JObj [] :: [sq_data unit_sq]))])
   /\ lookup "components"
        [("components", JArr ([sq_data unit_sq] ++ JObj [] :: [sq_data unit_sq]))]
      = Some (JArr ([sq_data unit_sq] ++ JObj [] :: [sq_data unit_sq]))
   /\ Forall2 (fun c sq => load_component c = Ok sq)
        [sq_data unit_sq] [rounded unit_sq]
   /\ load_component (JObj []) = Err KeyError)
  /\ load_superquadrics "example.json"
       (write "example.json"
          (JObj [("components",
                  JArr ([sq_data unit_sq] ++ JObj [] :: [sq_data unit_sq]))])
          no_files)
     = Err KeyError.
Proof.
  assert (H : Forall2 (fun c sq => load_component c = Ok sq)
                [sq_data unit_sq] [rounded unit_sq])
    by (repeat constructor).
  split; [repeat split; try reflexivity; exact H|].
  apply (load_superquadrics_first_error "example.json" _
           [("components", JArr ([sq_data unit_sq] ++ JObj [] :: [sq_data unit_sq]))]
           [sq_data unit_sq] [sq_data unit_sq] [rounded unit_sq] (JObj []) KeyError);
    try reflexivity; exact H.
Defined.

(** X3. What [load_superquadrics] raises on a file it cannot use: a
    missing file gives [FileNotFoundError], a file whose top level is not
    an object gives [TypeError], an object without ["components"] gives
    [KeyError]. *)
Theorem load_superquadrics_bad_file (filename : string) (fs : files) (e : exn) :
  (fs filename = None /\ e = FileNotFoundError)
  \/ (exists data, fs filename = Some data
                   /\ (forall fields, data <> JObj fields) /\ e = TypeError)
  \/ (exists fields, fs filename = Some (JObj fields)
                     /\ lookup "components" fields = None /\ e = KeyError) ->
  load_superquadrics filename fs = Err e.
Proof.
  unfold load_superquadrics, load.
  intros [[-> ->]|[[data [-> [Hdata ->]]]|[fields [-> [Hkey ->]]]]].
  - reflexivity.
  - destruct data; try reflexivity. now destruct (Hdata fields).
  - cbn [bind getitem_str]. now rewrite Hkey.
Qed.

Lemma load_superquadrics_bad_file_witness :
  ((no_files "example.json" = None /\ FileNotFoundError = FileNotFoundError)
   \/ (exists data, no_files "example.json" = Some data
                    /\ (forall fields, data <> JObj fields)
                    /\ FileNotFoundError = TypeError)
   \/ (exists fields, no_files "example.json" = Some (JObj fields)
                      /\ lookup "components" fields = None
                      /\ FileNotFoundError = KeyError))
  /\ load_superquadrics "example.json" no_files = Err FileNotFoundError.
Proof.
  assert (H : no_files "example.json" = None
              /\ FileNotFoundError = FileNotFoundError)
    by (split; reflexivity).
  split; [left; exact H|].
  apply (load_superquadrics_bad_file "example.json" no_files FileNotFoundError).
  left. exact H.
Defined.

(** X4. [set_values] needs three numbers in [scale]: with fewer, each of
    them a number that converts to a double without overflow (as the widget
    requires of what it is given), it raises [IndexError], whatever the
    other arguments are. *)
Theorem set_values_short_scale (nums : list Q)
    (position epsilon1 epsilon2 rotation : json) :
  (List.length nums < 3)%nat ->
  (forall q, In q nums -> Binary.fits_double q) ->
  set_values (JArr (map JNum nums)) position epsilon1 epsilon2 rotation
  = Err IndexError.
Proof.
  intros Hlen _. destruct nums as [|n1 [|n2 [|n3 rest]]]; simpl in Hlen;
    try lia; reflexivity.
Qed.

Lemma set_values_short_scale_witness :
  ((List.length [1; 2] < 3)%nat
   /\ (forall q, In q [1; 2] -> Binary.fits_double q))
  /\ set_values (JArr (map JNum [1; 2])) (JArr []) JNull JNull JNull
     = Err IndexError.
Proof.
  assert (H : forall q, In q [1; 2] -> Binary.fits_double q).
  { intros q [<-|[<-|[]]]; eexists; vm_compute; reflexivity. }
  split; [split; [simpl; lia|exact H]|].
  apply (set_values_short_scale [1; 2] (JArr []) JNull JNull JNull);
    [simpl; lia|exact H].
Defined.

End Loading.

Section SaveSqJson.

Import String Json Gui GuiSpec SaveJson SaveJsonSpec.
Local Open Scope string_scope.
Local Open Scope list_scope.

Variable from_matrix : list (list Q) -> result unit.
Variable open_w : string -> result unit.

Lemma load_component_of (sq : Superquadric) :
  load_component (component_of sq) = Ok sq.
Proof. destruct sq. reflexivity. Qed.

Lemma component_at_of (sqs : list Superquadric) (k : nat) (sq : Superquadric) :
  nth_error sqs k = Some sq ->
  component_at from_matrix (scale_of sqs) (rotate_of sqs) (trans_of sqs)
               (exps_of sqs) k
  = (_ <- from_matrix (rotation_of sq) ;; Ok (component_of sq)).
Proof.
  intros Hk. unfold component_at, entry, row, scale_of, rotate_of, trans_of, exps_of.
  rewrite !nth_error_map, Hk. cbn [option_map bind].
  destruct (from_matrix (rotation_of sq)); reflexivity.
Qed.

Lemma save_loop_err (sc : list (list Q)) (ro : list (list (list Q)))
    (tr ex : list (list Q)) (ks : list nat) (e : exn) :
  fold_left
    (fun acc k =>
       components <- acc ;;
       component <- component_at from_matrix sc ro tr ex k ;;
       Ok (components ++ [component]))
    ks (Err e)
  = Err e.
Proof. induction ks as [|k ks IH]; simpl; [reflexivity|exact IH]. Qed.

Lemma save_loop_ok (before rest tail : list Superquadric) (acc : list json) :
  (forall sq, In sq rest -> from_matrix (rotation_of sq) = Ok tt) ->
  fold_left
    (fun acc k =>
       components <- acc ;;
       component <- component_at from_matrix
                      (scale_of (before ++ rest ++ tail))
                      (rotate_of (before ++ rest ++ tail))
                      (trans_of (before ++ rest ++ tail))
                      (exps_of (before ++ rest ++ tail)) k ;;
       Ok (components ++ [component]))
    (seq (List.length before) (List.length rest)) (Ok acc)
  = Ok (acc ++ map component_of rest).
Proof.
  revert before acc. induction rest as [|sq rest IH]; intros before acc Hok.
  - simpl. now rewrite app_nil_r.
  - cbn [List.length seq fold_left bind].
    rewrite (component_at_of _ _ sq).
    2:{ rewrite nth_error_app2, Nat.sub_diag by lia. reflexivity. }
    rewrite (Hok sq) by (left; reflexivity). cbn [bind].
    replace (before ++ (sq :: rest) ++ tail)
      with ((before ++ [sq]) ++ rest ++ tail)
      by (now rewrite <- app_assoc).
    replace (S (List.length before)) with (List.length (before ++ [sq]))
      by (rewrite length_app; simpl; lia).
    rewrite IH by (intros sq' Hin; apply Hok; now right).
    now rewrite <- app_assoc.
Qed.

(** X5. Round trip of the component format: [save_sq_json], given the
    parameter arrays of a list of entries whose rotations scipy accepts,
    and a [save_path] in which [my_sq.json] can be opened for writing,
    writes that file, and [load_superquadrics] returns from it exactly
    those entries, in order and without rounding. *)
Theorem save_sq_json_round_trip (sqs : list Superquadric)
    (save_path : string) (fs : files) :
  (forall sq, In sq sqs -> from_matrix (rotation_of sq) = Ok tt) ->
  open_w (path_join save_path "my_sq.json") = Ok tt ->
  exists fs',
    save_sq_json from_matrix open_w (scale_of sqs) (rotate_of sqs)
                 (trans_of sqs) (exps_of sqs) save_path fs = Ok fs'
    /\ load_superquadrics (path_join save_path "my_sq.json") fs' = Ok sqs.
Proof.
  intros Hok Hopen. unfold save_sq_json.
  replace (List.length (scale_of sqs)) with (List.length sqs)
    by (unfold scale_of; now rewrite length_map).
  pose proof (save_loop_ok [] sqs [] [] Hok) as Hloop.
  rewrite app_nil_r in Hloop. cbn [app List.length] in Hloop.
  rewrite Hloop. cbn [bind app]. rewrite Hopen. cbn [bind].
  eexists. split; [reflexivity|].
  unfold load_superquadrics, load, write. rewrite String.eqb_refl.
  cbn [bind getitem_str lookup]. rewrite String.eqb_refl. cbn [bind iter].
  apply (load_loop_ok (map component_of sqs) [] sqs).
  clear Hok Hloop. induction sqs as [|sq sqs IH]; simpl; constructor.
  - apply load_component_of.
  - exact IH.
Qed.

(** X6. A rotation that scipy rejects aborts [save_sq_json]: the error of
    the first rejected rotation is raised and no file is written. *)
Theorem save_sq_json_rejected_rotation (before after : list Superquadric)
    (bad : Superquadric) (e : exn) (save_path : string) (fs : files) :
  (forall sq, In sq before -> from_matrix (rotation_of sq) = Ok tt) ->
  from_matrix (rotation_of bad) = Err e ->
  save_sq_json from_matrix open_w
    (scale_of (before ++ bad :: after)) (rotate_of (before ++ bad :: after))
    (trans_of (before ++ bad :: after)) (exps_of (before ++ bad :: after))
    save_path fs
  = Err e.
Proof.
  intros Hok Hbad. unfold save_sq_json.
  replace (List.length (scale_of (before ++ bad :: after)))
    with (List.length before + S (List.length after))%nat
    by (unfold scale_of; rewrite length_map, length_app; reflexivity).
  rewrite seq_app, fold_left_app.
  pose proof (save_loop_ok [] before (bad :: after) [] Hok) as Hloop.
  cbn [app List.length] in Hloop.
  rewrite Hloop. cbn [Nat.add seq fold_left bind].
  rewrite (component_at_of _ _ bad).
  2:{ rewrite nth_error_app2, Nat.sub_diag by lia. reflexivity. }
  rewrite Hbad. cbn [bind]. rewrite save_loop_err. reflexivity.
Qed.

End SaveSqJson.

Section SaveSqJsonExamples.

Import String Json Gui GuiSpec SaveJson SaveJsonSpec.
Local Open Scope string_scope.
Local Open Scope list_scope.

Lemma save_sq_json_round_trip_witness :
  ((forall sq, In sq [unit_sq] ->
               (fun _ : list (list Q) => Ok tt) (rotation_of sq) = Ok tt)
   /\ (fun path => if String.prefix "out/" path then Ok tt
                   else Err FileNotFoundError)
        (path_join "out" "my_sq.json") = Ok tt)
  /\ exists fs',
       save_sq_json (fun _ => Ok tt)
         (fun path => if String.prefix "out/" path then Ok tt
                      else Err FileNotFoundError)
         (scale_of [unit_sq]) (rotate_of [unit_sq])
         (trans_of [unit_sq]) (exps_of [unit_sq])
         "out" no_files = Ok fs'
       /\ load_superquadrics (path_join "out" "my_sq.json") fs'
          = Ok [unit_sq].
Proof.
  split; [split; reflexivity|].
  apply (save_sq_json_round_trip (fun _ => Ok tt)
           (fun path => if String.prefix "out/" path then Ok tt
                        else Err FileNotFoundError)
           [unit_sq] "out" no_files); reflexivity.
Defined.

Lemma save_sq_json_rejected_rotation_witness :
  ((forall sq, In sq [unit_sq] ->
               (fun m : list (list Q) =>
                  match m with
                  | [[1%Q; _; _]; _; _] => Ok tt
                  | _ => Err ValueError
                  end) (rotation_of sq) = Ok tt)
   /\ (fun m : list (list Q) =>
         match m with
         | [[1%Q; _; _]; _; _] => Ok tt
         | _ => Err ValueError
         end) (rotation_of (mkSuperquadric 1 1 1 1 1 0 0 0 0 0 0 0 0 0 0 0 0))
      = Err ValueError)
  /\ save_sq_json
       (fun m : list (list Q) =>
          match m with
          | [[1%Q; _; _]; _; _] => Ok tt
          | _ => Err ValueError
          end)
       (fun _ => Ok tt)
       (scale_of ([unit_sq]
          ++ mkSuperquadric 1 1 1 1 1 0 0 0 0 0 0 0 0 0 0 0 0 :: []))
       (rotate_of ([unit_sq]
          ++ mkSuperquadric 1 1 1 1 1 0 0 0 0 0 0 0 0 0 0 0 0 :: []))
       (trans_of ([unit_sq]
          ++ mkSuperquadric 1 1 1 1 1 0 0 0 0 0 0 0 0 0 0 0 0 :: []))
       (exps_of ([unit_sq]
          ++ mkSuperquadric 1 1 1 1 1 0 0 0 0 0 0 0 0 0 0 0 0 :: []))
       "out" no_files
     = Err ValueError.
Proof.
  assert (H1 : forall sq, In sq [unit_sq] ->
               (fun m : list (list Q) =>
                  match m with
                  | [[1%Q; _; _]; _; _] => Ok tt
                  | _ => Err ValueError
                  end) (rotation_of sq) = Ok tt).
  { intros sq [<-|[]]. reflexivity. }
  split; [split; [exact H1|reflexivity]|].
  apply (save_sq_json_rejected_rotation _ (fun _ => Ok tt) [unit_sq] []
           (mkSuperquadric 1 1 1 1 1 0 0 0 0 0 0 0 0 0 0 0 0) ValueError
           "out" no_files H1).
  reflexivity.
Defined.

End SaveSqJsonExamples.

(* ================================================================== *)
(** ** More on [save_object] *)

Section Saving.

Import String Json Gui GuiSpec.
Local Open Scope string_scope.
Local Open Scope list_scope.

Lemma stored_entries_write (fs : files) (entries : list json) :
  stored_entries (write OUTPUT_JSON (JArr entries) fs) = Some entries.
Proof. unfold stored_entries, write. now rewrite String.eqb_refl. Qed.

(** X7. Saves accumulate: two calls of [save_object] in a row leave the
    earlier entries of the output file in place, followed by the entry of
    the first call and then the entry of the second, and touch no other
    file. *)
Theorem save_object_accumulates (d1 d2 : string) (s1 s2 : list Superquadric)
    (fs : files) (old : list json) :
  stored_entries fs = Some old ->
  exists fs1 fs2,
    save_object d1 s1 fs = Ok fs1
    /\ save_object d2 s2 fs1 = Ok fs2
    /\ fs2 OUTPUT_JSON
       = Some (JArr (old ++
                     [JObj [("description", JStr d1);
                            ("superquadrics", JArr (saved_superquadrics s1))];
                      JObj [("description", JStr d2);
                            ("superquadrics", JArr (saved_superquadrics s2))]]))
    /\ forall name, name <> OUTPUT_JSON -> fs2 name = fs name.
Proof.
  intros Hold. eexists. eexists.
  split; [apply save_object_ok; exact Hold|].
  split; [apply save_object_ok; apply stored_entries_write|].
  split.
  - unfold write. rewrite String.eqb_refl, <- app_assoc. reflexivity.
  - intros name Hname. unfold write.
    apply String.eqb_neq in Hname. now rewrite Hname.
Qed.

Lemma save_object_accumulates_witness :
  stored_entries no_files = Some []
  /\ exists fs1 fs2,
       save_object "chair" [unit_sq] no_files = Ok fs1
       /\ save_object "table" [] fs1 = Ok fs2
       /\ fs2 OUTPUT_JSON
          = Some (JArr ([] ++
                        [JObj [("description", JStr "chair");
                               ("superquadrics", JArr (saved_superquadrics [unit_sq]))];
                         JObj [("description", JStr "table");
                               ("superquadrics", JArr (saved_superquadrics []))]]))
       /\ forall name, name <> OUTPUT_JSON -> fs2 name = no_files name.
Proof.
  split; [reflexivity|].
  apply (save_object_accumulates "chair" "table" [unit_sq] [] no_files []).
  reflexivity.
Defined.

(** X8. When the output file exists and does not hold a list,
    [save_object] raises [AttributeError] (from [data.append]) before
    anything is written. *)
Theorem save_object_not_a_list (description : string)
    (sqs : list Superquadric) (fs : files) :
  stored_entries fs = None ->
  save_object description sqs fs = Err AttributeError.
Proof.
  unfold stored_entries, save_object, load.
  destruct (fs OUTPUT_JSON) as [[| | | |entries|]|]; try discriminate;
    reflexivity.
Qed.

Lemma save_object_not_a_list_witness :
  stored_entries (write OUTPUT_JSON (JObj [("components", JArr [])]) no_files)
  = None
  /\ save_object "chair" [unit_sq]
       (write OUTPUT_JSON (JObj [("components", JArr [])]) no_files)
     = Err AttributeError.
Proof.
  split; [reflexivity|].
  apply (save_object_not_a_list "chair" [unit_sq]
           (write OUTPUT_JSON (JObj [("components", JArr [])]) no_files)).
  reflexivity.
Defined.

Lemma Qmake_100 (n : Z) : (n # 100 == inject_Z n * (1 # 100))%Q.
Proof. unfold Qeq, inject_Z, Qmult. simpl. lia. Qed.

(** Rounding to two decimals leaves a number of hundredths as it is. *)
Lemma round_hundredths (n : Z) : round (n # 100) 2 = (n # 100)%Q.
Proof.
  unfold round. change (Pos.pow 10 2) with 100%positive. f_equal.
  unfold round_half_even.
  assert (Hfloor : Qfloor ((n # 100) * inject_Z 100) = n).
  { unfold Qfloor, Qmult, inject_Z. simpl.
    apply Z.div_mul. lia. }
  rewrite Hfloor.
  assert (Hlt : ((n # 100) * inject_Z 100 - inject_Z n < 1 # 2)%Q).
  { rewrite Qmake_100. change (inject_Z 100) with (100 # 1)%Q. Lqa.lra. }
  destruct (Qcompare ((n # 100) * inject_Z 100 - inject_Z n) (1 # 2)) eqn:Hcmp.
  - apply Qeq_alt in Hcmp. rewrite Hcmp in Hlt. discriminate.
  - reflexivity.
  - apply Qgt_alt in Hcmp. exfalso. Lqa.lra.
Qed.

Lemma round_round (q : Q) : round (round q 2) 2 = round q 2.
Proof. unfold round at 2 3. apply round_hundredths. Qed.

Lemma sq_data_rounded (sq : Superquadric) : sq_data (rounded sq) = sq_data sq.
Proof. unfold sq_data, rounded. cbn [a1 a2 a3 e1 e2 x y z r11 r12 r13 r21 r22 r23 r31 r32 r33]. now rewrite !round_round. Qed.

(** X9. Saving is stable under reloading: entries that carry exponents
    already rounded by an earlier save (as the loader returns them) are
    written as exactly the same dictionaries as the original entries. *)
Theorem resave_is_stable (sqs : list Superquadric) :
  saved_superquadrics (map rounded sqs) = saved_superquadrics sqs.
Proof.
  rewrite !saved_superquadrics_filter.
  induction sqs as [|sq sqs IH]; [reflexivity|].
  cbn [map filter].
  replace (nonzero_axes (rounded sq)) with (nonzero_axes sq) by reflexivity.
  destruct (nonzero_axes sq); cbn [map]; rewrite IH; [|reflexivity].
  now rewrite sq_data_rounded.
Qed.

(** X10. The exponents [save_object] writes are numbers of hundredths
    within 0.005 of the values the widgets hold. *)
Theorem saved_epsilon_close (sq : Superquadric) :
  exists q1 q2,
    getitem_str (sq_data sq) "epsilon1" = Ok (JNum q1)
    /\ getitem_str (sq_data sq) "epsilon2" = Ok (JNum q2)
    /\ Qden q1 = 100%positive /\ Qden q2 = 100%positive
    /\ (Qabs (q1 - e1 sq) <= 1 # 200)%Q
    /\ (Qabs (q2 - e2 sq) <= 1 # 200)%Q.
Proof.
  assert (Hround : forall q, (Qabs (round q 2 - q) <= 1 # 200)%Q).
  { intros q. apply Qabs_Qle_condition.
    unfold round. change (Pos.pow 10 2) with 100%positive.
    rewrite Qmake_100. unfold round_half_even.
    pose proof (Qfloor_le (q * inject_Z 100)) as Hlo.
    pose proof (Qlt_floor (q * inject_Z 100)) as Hhi.
    rewrite inject_Z_plus in Hhi.
    set (f := Qfloor (q * inject_Z 100)) in *.
    change (inject_Z 100) with (100 # 1)%Q in *.
    change (inject_Z 1) with 1%Q in *.
    destruct (Qcompare (q * (100 # 1) - inject_Z f) (1 # 2)) eqn:Hcmp.
    - apply Qeq_alt in Hcmp.
      destruct (Z.even f); [|rewrite inject_Z_plus; change (inject_Z 1) with 1%Q];
        split; Lqa.lra.
    - apply Qlt_alt in Hcmp. split; Lqa.lra.
    - apply Qgt_alt in Hcmp. rewrite inject_Z_plus.
      change (inject_Z 1) with 1%Q. split; Lqa.lra. }
  exists (round (e1 sq) 2), (round (e2 sq) 2).
  repeat split; try reflexivity; apply Hround.
Qed.

End Saving.

(* ================================================================== *)
(** ** Rounding to binary formats *)

Section Rounding.

Import Binary.
Local Open Scope Q_scope.

Lemma pow2_pos (e : Z) : 0 < pow2 e.
Proof. apply Qpower_0_lt. reflexivity. Qed.

Lemma pow2_plus (a b : Z) : pow2 (a + b) == pow2 a * pow2 b.
Proof. apply Qpower_plus. discriminate. Qed.

Lemma pow2_le (a b : Z) : (a <= b)%Z -> pow2 a <= pow2 b.
Proof. intros H. apply Qpower_le_compat_l; [exact H|discriminate]. Qed.

Lemma pow2_lt (a b : Z) : (a < b)%Z -> pow2 a < pow2 b.
Proof. intros H. apply Qpower_lt_compat_l; [exact H|reflexivity]. Qed.

Lemma pow2_Z (e : Z) : (0 <= e)%Z -> pow2 e == inject_Z (2 ^ e).
Proof. intros H. symmetry. apply (Zpower_Qpower 2 e H). Qed.

Lemma floor_log2_spec (q : Q) :
  0 < q -> pow2 (floor_log2 q) <= q /\ q < pow2 (floor_log2 q + 1).
Proof.
  intros Hq. unfold floor_log2.
  destruct q as [n d]. cbn [Qnum Qden].
  assert (Hn : (0 < n)%Z) by (unfold Qlt in Hq; simpl in Hq; lia).
  set (a := Z.log2 n). set (b := Z.log2 (Z.pos d)).
  assert (Ha0 : (0 <= a)%Z) by apply Z.log2_nonneg.
  assert (Hb0 : (0 <= b)%Z) by apply Z.log2_nonneg.
  destruct (Z.log2_spec n Hn) as [Ha1 Ha2]. fold a in Ha1, Ha2.
  destruct (Z.log2_spec (Z.pos d) eq_refl) as [Hb1 Hb2]. fold b in Hb1, Hb2.
  assert (HN1 : pow2 a <= inject_Z n)
    by (rewrite pow2_Z by lia; rewrite <- Zle_Qle; exact Ha1).
  assert (HN2 : inject_Z n < pow2 (a + 1))
    by (rewrite pow2_Z by lia; rewrite <- Zlt_Qlt; exact Ha2).
  assert (HD1 : pow2 b <= inject_Z (Z.pos d))
    by (rewrite pow2_Z by lia; rewrite <- Zle_Qle; exact Hb1).
  assert (HD2 : inject_Z (Z.pos d) < pow2 (b + 1))
    by (rewrite pow2_Z by lia; rewrite <- Zlt_Qlt; exact Hb2).
  assert (Hq' : (n # d) * inject_Z (Z.pos d) == inject_Z n).
  { unfold Qeq, Qmult, inject_Z. simpl. lia. }
  pose proof (pow2_pos b) as Pb. pose proof (pow2_pos (a - b)) as Pab.
  pose proof (pow2_pos (a - b - 1)) as Pab1.
  assert (E1 : pow2 (a + 1) == pow2 (a - b + 1) * pow2 b)
    by (rewrite <- pow2_plus; f_equiv; lia).
  assert (E2 : pow2 a == pow2 (a - b - 1) * pow2 (b + 1))
    by (rewrite <- pow2_plus; f_equiv; lia).
  destruct (Qle_bool (pow2 (a - b)) (n # d)) eqn:Hc.
  - apply Qle_bool_iff in Hc. split; [exact Hc|].
    apply Qnot_le_lt. intros Hge.
    assert (pow2 (a - b + 1) * pow2 b <= (n # d) * inject_Z (Z.pos d)).
    { apply Qmult_le_compat_nonneg; split; try assumption;
        apply Qlt_le_weak; apply pow2_pos. }
    rewrite Hq', <- E1 in H. Lqa.lra.
  - assert (Hlt : (n # d) < pow2 (a - b)).
    { apply Qnot_le_lt. intros H. apply Qle_bool_iff in H. congruence. }
    replace (a - b - 1 + 1)%Z with (a - b)%Z by lia.
    split; [|exact Hlt].
    apply Qnot_lt_le. intros Hlt'.
    assert ((n # d) * inject_Z (Z.pos d) < pow2 (a - b - 1) * pow2 (b + 1)).
    { apply Qle_lt_trans with ((n # d) * pow2 (b + 1)).
      - apply Qmult_le_l; [exact Hq|]. apply Qlt_le_weak. exact HD2.
      - apply Qmult_lt_r; [apply pow2_pos|exact Hlt']. }
    rewrite Hq', <- E2 in H. Lqa.lra.
Qed.


Lemma round_half_even_between (x : Q) (lo hi : Z) :
  inject_Z lo <= x -> x <= inject_Z hi ->
  (lo <= Json.round_half_even x <= hi)%Z.
Proof.
  intros Hlo Hhi. unfold Json.round_half_even.
  pose proof (Qfloor_le x) as Hf1. pose proof (Qlt_floor x) as Hf2.
  assert (Hflo : (lo <= Qfloor x)%Z)
    by (rewrite <- (Qfloor_Z lo); now apply Qfloor_resp_le).
  assert (Hfhi : (Qfloor x <= hi)%Z)
    by (rewrite <- (Qfloor_Z hi); now apply Qfloor_resp_le).
  assert (Hup : inject_Z (Qfloor x) + (1 # 2) <= x -> (Qfloor x + 1 <= hi)%Z).
  { intros H. destruct (Z.eq_dec (Qfloor x) hi) as [E|E]; [|lia].
    rewrite E in H. Lqa.lra. }
  destruct (Qcompare (x - inject_Z (Qfloor x)) (1 # 2)) eqn:Hc.
  - apply Qeq_alt in Hc. destruct (Z.even (Qfloor x)); [lia|].
    split; [lia|]. apply Hup. Lqa.lra.
  - lia.
  - apply Qgt_alt in Hc. split; [lia|]. apply Hup. Lqa.lra.
Qed.

(** Rounding to a double keeps a value between two powers of two of the
    normal range between them: no underflow, no overflow. *)
Lemma to_double_range (q : Q) (a b : Z) :
  (-1022 <= a)%Z -> (b <= 1023)%Z ->
  pow2 a <= Qabs q -> Qabs q <= pow2 b ->
  exists r, to_double q = Num r /\ pow2 a <= Qabs r /\ Qabs r <= pow2 b.
Proof.
  intros Ha Hb Hlo Hhi.
  pose proof (pow2_pos a) as Pa.
  assert (Hq0 : 0 < Qabs q) by Lqa.lra.
  destruct (floor_log2_spec (Qabs q) Hq0) as [He1 He2].
  set (e := floor_log2 (Qabs q)) in *.
  assert (Hae : (a <= e)%Z).
  { destruct (Z_le_gt_dec a e) as [H|H]; [exact H|].
    pose proof (pow2_le (e + 1) a ltac:(lia)). Lqa.lra. }
  assert (Heb : (e <= b)%Z).
  { destruct (Z_le_gt_dec e b) as [H|H]; [exact H|].
    pose proof (pow2_lt b e ltac:(lia)). Lqa.lra. }
  unfold to_double, round.
  assert (Hne : Qeq_bool q 0 = false).
  { apply not_true_iff_false. intros H. apply Qeq_bool_iff in H.
    rewrite H in Hq0. discriminate. }
  rewrite Hne. fold e. rewrite (Z.max_l e (-1022)) by lia.
  set (ulp := pow2 (e - (53 - 1))).
  pose proof (pow2_pos (e - (53 - 1))) as Pulp. fold ulp in Pulp.
  assert (Eu1 : pow2 e == inject_Z (2 ^ 52) * ulp).
  { unfold ulp. rewrite <- (pow2_Z 52) by lia. rewrite <- pow2_plus.
    f_equiv. lia. }
  assert (Eu2 : pow2 b == inject_Z (2 ^ (b - e + 52)) * ulp).
  { unfold ulp. rewrite <- (pow2_Z (b - e + 52)) by lia. rewrite <- pow2_plus.
    f_equiv. lia. }
  set (m := Json.round_half_even (q / ulp)).
  assert (Hx : q / ulp * ulp == q) by (field; Lqa.lra).
  assert (Hr : pow2 e <= Qabs (inject_Z m * ulp)
               /\ Qabs (inject_Z m * ulp) <= pow2 b).
  { rewrite Qabs_Qmult, (Qabs_pos ulp) by Lqa.lra.
    destruct (Qlt_le_dec q 0) as [Hneg|Hpos].
    - rewrite (Qabs_neg q) in * by Lqa.lra.
      assert (Hm : (- 2 ^ (b - e + 52) <= m <= - 2 ^ 52)%Z).
      { apply round_half_even_between; rewrite inject_Z_opp.
        - apply Qmult_le_r with ulp; [exact Pulp|]. rewrite Hx. Lqa.nra.
        - apply Qmult_le_r with ulp; [exact Pulp|]. rewrite Hx. Lqa.nra. }
      rewrite (Qabs_neg (inject_Z m)) by (rewrite Zle_Qle in Hm; change 0 with (inject_Z 0); rewrite <- Zle_Qle; lia).
      destruct Hm as [Hm1 Hm2]. rewrite Zle_Qle, inject_Z_opp in Hm1, Hm2.
      rewrite Eu1, Eu2. split; Lqa.nra.
    - rewrite (Qabs_pos q) in * by Lqa.lra.
      assert (Hm : (2 ^ 52 <= m <= 2 ^ (b - e + 52))%Z).
      { apply round_half_even_between.
        - apply Qmult_le_r with ulp; [exact Pulp|]. rewrite Hx. Lqa.nra.
        - apply Qmult_le_r with ulp; [exact Pulp|]. rewrite Hx. Lqa.nra. }
      rewrite (Qabs_pos (inject_Z m)) by (change 0 with (inject_Z 0); rewrite <- Zle_Qle; lia).
      destruct Hm as [Hm1 Hm2]. rewrite Zle_Qle in Hm1, Hm2.
      rewrite Eu1, Eu2. split; Lqa.nra. }
  destruct Hr as [Hr1 Hr2].
  assert (Hno : Qle_bool (pow2 (1023 + 1)) (Qabs (inject_Z m * ulp)) = false).
  { apply not_true_iff_false. intros H. apply Qle_bool_iff in H.
    pose proof (pow2_lt b (1023 + 1) ltac:(lia)). Lqa.lra. }
  fold ulp. fold m. rewrite Hno.
  exists (inject_Z m * ulp). split; [reflexivity|].
  pose proof (pow2_le a e Hae). split; Lqa.lra.
Qed.

End Rounding.

(* ================================================================== *)
(** ** The displayed meshes *)

Section Displayed.

Import Json Gui GuiSpec Visualize VisualizeSpec.

Lemma fold_left_ok_flat_map {A B : Type} (step : result (list B) -> A -> result (list B))
    (f : A -> list B) (l : list A) :
  (forall acc a, step (Ok acc) a = Ok (acc ++ f a)) ->
  forall init, fold_left step l (Ok init) = Ok (init ++ flat_map f l).
Proof.
  intros Hstep. induction l as [|a l IH]; intros init; simpl.
  - now rewrite app_nil_r.
  - rewrite Hstep, IH, <- app_assoc. reflexivity.
Qed.

Lemma Qeq_bool_false_pos (q : Q) : (0 < Qabs q)%Q -> Qeq_bool q 0 = false.
Proof.
  intros H. apply not_true_iff_false. intros E. apply Qeq_bool_iff in E.
  rewrite E in H. discriminate.
Qed.

Lemma to_double_zero (q : Q) : (q == 0)%Q -> Binary.to_double q = Binary.Num 0.
Proof.
  intros H. unfold Binary.to_double, Binary.round.
  apply Qeq_bool_iff in H. now rewrite H.
Qed.

(** For semi-axes of moderate magnitude the rounded product is zero
    exactly when one of the semi-axes is. *)
Lemma axes_product_moderate (sq : Superquadric) :
  moderate sq -> axes_product_nonzero sq = nonzero_axes sq.
Proof.
  intros [H1 [H2 H3]].
  unfold axes_product_nonzero, nonzero_axes, is_zero. cbn [Binary.mul].
  pose proof (pow2_pos (-300)) as P300.
  pose proof (pow2_plus (-300) (-300)) as Elo.
  pose proof (pow2_plus 300 300) as Ehi.
  pose proof (pow2_plus (-600) (-300)) as Elo'.
  pose proof (pow2_plus 600 300) as Ehi'.
  change (-300 + -300)%Z with (-600)%Z in Elo.
  change (300 + 300)%Z with 600%Z in Ehi.
  change (-600 + -300)%Z with (-900)%Z in Elo'.
  change (600 + 300)%Z with 900%Z in Ehi'.
  pose proof (pow2_pos 300) as Q300.
  pose proof (pow2_pos (-600)) as P600. pose proof (pow2_pos 600) as Q600.
  destruct H1 as [Z1|[L1 U1]].
  { rewrite (to_double_zero (a1 sq * a2 sq)) by (rewrite Z1; ring).
    cbn [Binary.mul].
    rewrite (to_double_zero (0 * a3 sq)) by ring.
    apply Qeq_bool_iff in Z1. rewrite Z1. reflexivity. }
  rewrite (Qeq_bool_false_pos (a1 sq)) by Lqa.lra.
  destruct H2 as [Z2|[L2 U2]].
  { rewrite (to_double_zero (a1 sq * a2 sq)) by (rewrite Z2; ring).
    cbn [Binary.mul].
    rewrite (to_double_zero (0 * a3 sq)) by ring.
    apply Qeq_bool_iff in Z2. rewrite Z2. reflexivity. }
  rewrite (Qeq_bool_false_pos (a2 sq)) by Lqa.lra.
  destruct (to_double_range (a1 sq * a2 sq) (-600) 600) as [r [-> [Lr Ur]]];
    try lia.
  { rewrite Qabs_Qmult, Elo. pose proof (Qabs_nonneg (a1 sq)).
    pose proof (Qabs_nonneg (a2 sq)). Lqa.nra. }
  { rewrite Qabs_Qmult, Ehi. pose proof (Qabs_nonneg (a1 sq)).
    pose proof (Qabs_nonneg (a2 sq)). Lqa.nra. }
  cbn [Binary.mul].
  destruct H3 as [Z3|[L3 U3]].
  { rewrite (to_double_zero (r * a3 sq)) by (rewrite Z3; ring).
    apply Qeq_bool_iff in Z3. rewrite Z3. reflexivity. }
  rewrite (Qeq_bool_false_pos (a3 sq)) by Lqa.lra.
  destruct (to_double_range (r * a3 sq) (-900) 900) as [r' [-> [Lr' Ur']]];
    try lia.
  { rewrite Qabs_Qmult, Elo'. pose proof (Qabs_nonneg r).
    pose proof (Qabs_nonneg (a3 sq)). Lqa.nra. }
  { rewrite Qabs_Qmult, Ehi'. pose proof (Qabs_nonneg r).
    pose proof (Qabs_nonneg (a3 sq)). Lqa.nra. }
  cbn [Binary.nonzero negb andb].
  pose proof (pow2_pos (-900)).
  now rewrite (Qeq_bool_false_pos r') by Lqa.lra.
Qed.

Lemma visualize_shown (sqs : list Superquadric) :
  visualize_superquadrics sqs = Ok (flat_map shown (indexed sqs)).
Proof.
  unfold visualize_superquadrics, indexed.
  rewrite (fold_left_ok_flat_map _ shown); [reflexivity|].
  intros acc [i sq]. cbn [bind]. unfold shown.
  destruct (axes_product_nonzero sq).
  - unfold default_num_points. rewrite generate_grid by lia. reflexivity.
  - now rewrite app_nil_r.
Qed.

Lemma In_indexed (sqs : list Superquadric) (i : nat) (sq : Superquadric) :
  In (i, sq) (indexed sqs) <-> nth_error sqs i = Some sq.
Proof.
  unfold indexed.
  assert (G : forall start, In (i, sq) (combine (seq start (length sqs)) sqs) <->
                            (start <= i)%nat /\ nth_error sqs (i - start) = Some sq).
  { induction sqs as [|sq' sqs IH]; intros start; simpl.
    - split; [tauto|]. intros [_ H]. now rewrite nth_error_nil in H.
    - rewrite IH. split.
      + intros [H|[Hle Hnth]].
        * injection H as <- <-. split; [lia|]. now rewrite Nat.sub_diag.
        * split; [lia|]. replace (i - start)%nat with (S (i - S start)) by lia.
          exact Hnth.
      + intros [Hle Hnth]. destruct (Nat.eq_dec start i) as [<-|Hne].
        * left. rewrite Nat.sub_diag in Hnth. simpl in Hnth. now injection Hnth as <-.
        * right. split; [lia|].
          replace (i - start)%nat with (S (i - S start)) in Hnth by lia.
          exact Hnth. }
  rewrite G, Nat.sub_0_r. split; [tauto|]. intros H. split; [lia|exact H].
Qed.


(** X11. For semi-axes of moderate magnitude (each zero, or between
    [2^-300] and [2^300] in absolute value, so that the products of the
    display neither underflow nor overflow) the display and the save agree
    on which entries count: [visualize_superquadrics] succeeds, adds one
    geometry per entry whose semi-axes are all nonzero, under that entry's
    position in [self.sqs], in order, and adds as many geometries as
    [save_object] writes dictionaries. *)
Theorem visualize_shows_what_is_saved (sqs : list Superquadric) :
  (forall sq, In sq sqs -> moderate sq) ->
  exists scene,
    visualize_superquadrics sqs = Ok scene
    /\ map fst scene
       = map fst (filter (fun isq => nonzero_axes (snd isq)) (indexed sqs))
    /\ length scene = length (saved_superquadrics sqs)
    /\ forall i, In i (map fst scene) <->
                 exists sq, nth_error sqs i = Some sq
                            /\ ~ (a1 sq == 0)%Q /\ ~ (a2 sq == 0)%Q
                            /\ ~ (a3 sq == 0)%Q.
Proof.
  intros Hmod.
  exists (flat_map shown (indexed sqs)).
  split; [apply visualize_shown|].
  assert (Hall : forall isq, In isq (indexed sqs) -> moderate (snd isq)).
  { intros [i sq] Hin. apply In_indexed in Hin. apply Hmod.
    now apply (nth_error_In sqs i). }
  assert (Hfst : map fst (flat_map shown (indexed sqs))
                 = map fst (filter (fun isq => nonzero_axes (snd isq)) (indexed sqs))).
  { induction (indexed sqs) as [|[i sq] l IH]; [reflexivity|].
    cbn [flat_map filter snd]. rewrite map_app, IH
      by (intros isq Hin; apply Hall; now right).
    unfold shown at 1.
    rewrite (axes_product_moderate sq) by (apply (Hall (i, sq)); now left).
    destruct (nonzero_axes sq); reflexivity. }
  split; [exact Hfst|]. split.
  - rewrite saved_superquadrics_filter, length_map.
    rewrite <- (length_map fst), Hfst, length_map. clear Hfst Hall Hmod.
    unfold indexed. generalize 0%nat as start.
    induction sqs as [|sq sqs IH]; intros start; [reflexivity|].
    cbn [length seq combine filter snd].
    destruct (nonzero_axes sq); cbn [length]; rewrite IH; reflexivity.
  - intros i. rewrite Hfst, in_map_iff. split.
    + intros [[j sq] [Hj Hin]]. simpl in Hj. subst j.
      apply filter_In in Hin. destruct Hin as [Hin Hnz].
      apply In_indexed in Hin. exists sq. split; [exact Hin|].
      now apply nonzero_axes_spec.
    + intros [sq [Hnth Hnz]]. exists (i, sq). split; [reflexivity|].
      apply filter_In. split; [now apply In_indexed|].
      now apply nonzero_axes_spec.
Qed.

Lemma visualize_shows_what_is_saved_witness :
  (forall sq,
      In sq [unit_sq; mkSuperquadric 0 1 1 1 1 0 0 0 1 0 0 0 1 0 0 0 1] ->
      moderate sq) /\
  exists scene,
    visualize_superquadrics
      [unit_sq; mkSuperquadric 0 1 1 1 1 0 0 0 1 0 0 0 1 0 0 0 1] = Ok scene
    /\ map fst scene
       = map fst (filter (fun isq => nonzero_axes (snd isq))
                    (indexed
                       [unit_sq;
                        mkSuperquadric 0 1 1 1 1 0 0 0 1 0 0 0 1 0 0 0 1]))
    /\ length scene
       = length (saved_superquadrics
                   [unit_sq;
                    mkSuperquadric 0 1 1 1 1 0 0 0 1 0 0 0 1 0 0 0 1])
    /\ forall i, In i (map fst scene) <->
                 exists sq,
                   nth_error
                     [unit_sq;
                      mkSuperquadric 0 1 1 1 1 0 0 0 1 0 0 0 1 0 0 0 1] i
                   = Some sq
                   /\ ~ (a1 sq == 0)%Q /\ ~ (a2 sq == 0)%Q
                   /\ ~ (a3 sq == 0)%Q.
Proof.
  assert (Hone : moderate_axis 1).
  { right. split; apply Qle_bool_imp_le; vm_compute; reflexivity. }
  assert (Hzero : moderate_axis 0) by (left; reflexivity).
  assert (Hmod : forall sq,
             In sq [unit_sq;
                    mkSuperquadric 0 1 1 1 1 0 0 0 1 0 0 0 1 0 0 0 1] ->
             moderate sq).
  { intros sq [<-|[<-|[]]]; repeat split; assumption. }
  split; [exact Hmod|].
  apply (visualize_shows_what_is_saved
           [unit_sq; mkSuperquadric 0 1 1 1 1 0 0 0 1 0 0 0 1 0 0 0 1]).
  exact Hmod.
Defined.



End Displayed.

(* ================================================================== *)
(** ** Centroids of segments *)

Section Centroids.

Import Centroid.
Local Open Scope R_scope.



End Centroids.

(* ================================================================== *)
(** ** Settings: materials by reference, lighting profiles *)

Section SettingsProperties.

Import String Json SettingsModel.
Local Open Scope string_scope.
Local Open Scope list_scope.

Lemma assoc_set_same {A : Type} (k : string) (v : A) (d : list (string * A)) :
  assoc k (assoc_set k v d) = Some v.
Proof.
  induction d as [|[k' w] d IH]; simpl.
  - now rewrite String.eqb_refl.
  - destruct (String.eqb k' k) eqn:E; simpl; rewrite E; [reflexivity|exact IH].
Qed.

Lemma assoc_set_other {A : Type} (k k' : string) (v : A) (d : list (string * A)) :
  k' <> k -> assoc k (assoc_set k' v d) = assoc k d.
Proof.
  intros Hne. induction d as [|[k0 w] d IH]; simpl.
  - apply String.eqb_neq in Hne. now rewrite Hne.
  - destruct (String.eqb k0 k') eqn:E; simpl.
    + apply String.eqb_eq in E. subst k0.
      apply String.eqb_neq in Hne. now rewrite Hne.
    + destruct (String.eqb k0 k); [reflexivity|exact IH].
Qed.

Lemma assoc_update_all {A : Type} (items : list (string * A))
    (d : list (string * A)) (k : string) :
  NoDup (map fst items) ->
  assoc k (fold_left (fun a kv => assoc_set (fst kv) (snd kv) a) items d)
  = match assoc k items with
    | Some v => Some v
    | None => assoc k d
    end.
Proof.
  revert d. induction items as [|[k' v] items IH]; intros d Hnd; [reflexivity|].
  inversion Hnd as [|? ? Hnotin Hnd']; subst. cbn [fold_left fst snd assoc].
  rewrite IH by exact Hnd'.
  destruct (String.eqb k' k) eqn:E.
  - apply String.eqb_eq in E. subst k'.
    assert (Hnone : assoc k items = None).
    { clear IH Hnd Hnd'. induction items as [|[k0 w] items IH]; [reflexivity|].
      simpl in *. destruct (String.eqb k0 k) eqn:E0.
      - apply String.eqb_eq in E0. subst k0. exfalso. apply Hnotin. now left.
      - apply IH. intros H. apply Hnotin. now right. }
    rewrite Hnone. apply assoc_set_same.
  - destruct (assoc k items); [reflexivity|].
    apply assoc_set_other. now apply String.eqb_neq.
Qed.

Lemma profile_keys (name : string) (profile : list (string * json)) :
  assoc name LIGHTING_PROFILES = Some profile -> NoDup (map fst profile).
Proof.
  unfold LIGHTING_PROFILES. cbn [assoc].
  repeat match goal with
         | |- context [String.eqb ?a name] => destruct (String.eqb a name)
         end;
    intros H; try discriminate; injection H as <-;
    repeat constructor; simpl; intuition discriminate.
Qed.

Lemma prefab_inv (name : string) (prefab : list (string * Q)) :
  assoc name PREFAB = Some prefab ->
  exists a b c d e f, prefab = prefab_of a b c d e f.
Proof.
  unfold PREFAB. cbn [assoc].
  repeat match goal with
         | |- context [String.eqb ?a name] => destruct (String.eqb a name)
         end;
    intros H; try discriminate; injection H as <-;
    repeat eexists.
Qed.

Lemma apply_prefab_of (m : MaterialRecord) (a b c d e f : Q) :
  fold_left (fun acc kv => m <- acc ;; mat_setattr m ("base_" ++ fst kv) (snd kv))
            (prefab_of a b c d e f) (Ok m)
  = Ok (mkMaterial (base_color m) (shader m)
                   (Binary.to_float32 a) (Binary.to_float32 b)
                   (Binary.to_float32 c) (Binary.to_float32 d)
                   (Binary.to_float32 e) (Binary.to_float32 f) (point_size m)).
Proof. reflexivity. Qed.

(** What the clay prefab's clearcoat roughness 0.287 reads back as:
    4815061 / 2^24 = 0.28700000047683716. *)
Lemma clay_roughness_stored :
  Binary.to_float32 (287 # 1000) = Binary.Num (9630122 # 33554432).
Proof. vm_compute. reflexivity. Qed.

(** X17. The material records are shared, as the comment in [__init__]
    says: after a prefab is applied to the lit material, switching to
    another shader and back to the lit one finds the values the prefab
    left still there: the prefab's six numbers as the 32-bit fields of
    the record hold them.  All three calls succeed, and the colour, the
    shader and the point size of the record are untouched by the
    prefab. *)
Theorem prefab_survives_shader_switch (s : Settings) (m other_m : MaterialRecord)
    (name other : string) (prefab : list (string * Q)) :
  well_formed s ->
  material s = LIT ->
  current s = Some m ->
  assoc name PREFAB = Some prefab ->
  assoc other (materials s) = Some other_m ->
  exists s1 s2 s3 a b c d e f,
    apply_material_prefab name s = Returns s1
    /\ set_material other s1 = Ok s2
    /\ set_material LIT s2 = Ok s3
    /\ prefab = prefab_of a b c d e f
    /\ current s1
       = Some (mkMaterial (base_color m) LIT
                          (Binary.to_float32 a) (Binary.to_float32 b)
                          (Binary.to_float32 c) (Binary.to_float32 d)
                          (Binary.to_float32 e) (Binary.to_float32 f)
                          (point_size m))
    /\ current s3 = current s1.
Proof.
  intros [_ Hshader] Hlit Hcur Hprefab Hother.
  destruct (prefab_inv name prefab Hprefab) as [a [b [c [d [e [f ->]]]]]].
  assert (Hm : shader m = LIT).
  { unfold current in Hcur. rewrite Hlit in Hcur. exact (Hshader LIT m Hcur). }
  set (m' := mkMaterial (base_color m) LIT
                        (Binary.to_float32 a) (Binary.to_float32 b)
                        (Binary.to_float32 c) (Binary.to_float32 d)
                        (Binary.to_float32 e) (Binary.to_float32 f)
                        (point_size m)).
  assert (H1 : apply_material_prefab name s
               = Returns (mkSettings (attrs s)
                                     (assoc_set LIT m' (materials s)) LIT)).
  { unfold apply_material_prefab. rewrite Hcur, Hm, String.eqb_refl.
    cbn [negb]. rewrite Hprefab, apply_prefab_of, Hm, Hlit. reflexivity. }
  assert (Hother' : exists mo, assoc other (assoc_set LIT m' (materials s)) = Some mo).
  { destruct (String.eqb LIT other) eqn:E.
    - apply String.eqb_eq in E. subst other. exists m'. apply assoc_set_same.
    - exists other_m. rewrite assoc_set_other; [exact Hother|].
      now apply String.eqb_neq. }
  destruct Hother' as [mo Hmo].
  eexists. eexists. eexists. exists a, b, c, d, e, f.
  split; [exact H1|].
  split; [unfold set_material; cbn [materials attrs]; rewrite Hmo; reflexivity|].
  split; [unfold set_material; cbn [materials attrs];
          rewrite assoc_set_same; reflexivity|].
  split; [reflexivity|].
  unfold current. cbn [materials material]. rewrite assoc_set_same.
  split; reflexivity.
Qed.

(** X18. [apply_material_prefab] is guarded by its assertion: while another
    shader than the lit one is selected the call fails the assertion,
    whatever the prefab name, and changes nothing. *)
Theorem apply_material_prefab_needs_lit (s : Settings) (name : string) :
  well_formed s ->
  material s <> LIT ->
  apply_material_prefab name s = AssertionFails.
Proof.
  intros [[m Hcur] Hshader] Hne. unfold apply_material_prefab. rewrite Hcur.
  assert (Hm : shader m = material s) by (apply Hshader; exact Hcur).
  rewrite Hm. apply String.eqb_neq in Hne. now rewrite Hne.
Qed.

(** X19. [apply_lighting_profile] assigns exactly the attributes the
    profile lists: each gets the profile's value, every other attribute,
    the materials and the selected material stay as they were; the name
    ["Custom"], which is no profile, raises [KeyError]. *)
Theorem apply_lighting_profile_effect (s : Settings) (name : string)
    (profile : list (string * json)) :
  assoc name LIGHTING_PROFILES = Some profile ->
  (exists s',
     apply_lighting_profile name s = Ok s'
     /\ materials s' = materials s /\ material s' = material s
     /\ (forall k v, assoc k profile = Some v -> assoc k (attrs s') = Some v)
     /\ (forall k, assoc k profile = None ->
                   assoc k (attrs s') = assoc k (attrs s)))
  /\ apply_lighting_profile CUSTOM_PROFILE_NAME s = Err KeyError.
Proof.
  intros Hp. split; [|reflexivity].
  unfold apply_lighting_profile. rewrite Hp. eexists.
  split; [reflexivity|]. cbn [materials material attrs].
  split; [reflexivity|]. split; [reflexivity|].
  pose proof (profile_keys name profile Hp) as Hnd.
  split.
  - intros k v Hk. rewrite assoc_update_all by exact Hnd. now rewrite Hk.
  - intros k Hk. rewrite assoc_update_all by exact Hnd. now rewrite Hk.
Qed.

Lemma init_well_formed (fresh : MaterialRecord) : well_formed (init fresh).
Proof.
  split; [eexists; reflexivity|].
  intros k m. unfold init. cbn [materials assoc].
  repeat match goal with
         | |- context [String.eqb ?a k] => destruct (String.eqb_spec a k)
         end;
    intros H; try discriminate; injection H as <-; subst; reflexivity.
Qed.

(** X20. Well-formedness is an invariant of [Settings]: the constructor
    establishes it and [set_material], [apply_material_prefab] and
    [apply_lighting_profile] keep it, so [self.material] is always one of
    the four records and each record keeps the shader it is filed under. *)
Theorem settings_stay_well_formed (fresh : MaterialRecord) (s : Settings) :
  well_formed s ->
  well_formed (init fresh)
  /\ (forall name s', set_material name s = Ok s' -> well_formed s')
  /\ (forall name s', apply_material_prefab name s = Returns s' -> well_formed s')
  /\ (forall name s', apply_lighting_profile name s = Ok s' -> well_formed s').
Proof.
  intros [[m Hcur] Hshader].
  split; [apply init_well_formed|]. split; [|split].
  - intros name s' H. unfold set_material in H.
    destruct (assoc name (materials s)) as [mn|] eqn:Hn; [|discriminate].
    injection H as <-. split; [exists mn; exact Hn|exact Hshader].
  - intros name s' H. unfold apply_material_prefab in H. rewrite Hcur in H.
    destruct (negb (String.eqb (shader m) LIT)); [discriminate|].
    destruct (assoc name PREFAB) as [prefab|] eqn:Hp; [|discriminate].
    destruct (prefab_inv name prefab Hp) as [a [b [c [d [e [f ->]]]]]].
    rewrite apply_prefab_of in H. injection H as <-.
    split.
    + eexists. unfold current. cbn [materials material]. apply assoc_set_same.
    + cbn [materials]. intros k mk Hk.
      destruct (String.eqb_spec (material s) k) as [<-|Hne].
      * rewrite assoc_set_same in Hk. injection Hk as <-. cbn [shader].
        apply Hshader. exact Hcur.
      * rewrite assoc_set_other in Hk by exact Hne. now apply Hshader.
  - intros name s' H. unfold apply_lighting_profile in H.
    destruct (assoc name LIGHTING_PROFILES); [|discriminate].
    injection H as <-. split; [exists m; exact Hcur|exact Hshader].
Qed.

Lemma settings_stay_well_formed_witness :
  well_formed (init plain_material)
  /\ (well_formed (init plain_material)
      /\ (forall name s', set_material name (init plain_material) = Ok s' ->
                          well_formed s')
      /\ (forall name s',
            apply_material_prefab name (init plain_material) = Returns s' ->
            well_formed s')
      /\ (forall name s',
            apply_lighting_profile name (init plain_material) = Ok s' ->
            well_formed s')).
Proof.
  pose proof (init_well_formed plain_material) as H.
  split; [exact H|].
  apply (settings_stay_well_formed plain_material (init plain_material) H).
Defined.

Lemma prefab_survives_shader_switch_witness :
  (well_formed (init plain_material)
   /\ material (init plain_material) = LIT
   /\ current (init plain_material)
      = Some (with_shader LIT (with_base_color [9 # 10; 9 # 10; 9 # 10; 1]
                                               plain_material))
   /\ assoc "Clay" PREFAB = Some (prefab_of 0 1 (5 # 10) (1 # 10) (287 # 1000) 0)
   /\ assoc NORMALS (materials (init plain_material))
      = Some (with_shader NORMALS plain_material))
  /\ exists s1 s2 s3 a b c d e f,
       apply_material_prefab "Clay" (init plain_material) = Returns s1
       /\ set_material NORMALS s1 = Ok s2
       /\ set_material LIT s2 = Ok s3
       /\ prefab_of 0 1 (5 # 10) (1 # 10) (287 # 1000) 0 = prefab_of a b c d e f
       /\ current s1
          = Some (mkMaterial
                    (base_color (with_shader LIT
                       (with_base_color [9 # 10; 9 # 10; 9 # 10; 1] plain_material)))
                    LIT (Binary.to_float32 a) (Binary.to_float32 b)
                    (Binary.to_float32 c) (Binary.to_float32 d)
                    (Binary.to_float32 e) (Binary.to_float32 f)
                    (point_size (with_shader LIT
                       (with_base_color [9 # 10; 9 # 10; 9 # 10; 1] plain_material))))
       /\ current s3 = current s1.
Proof.
  pose proof (init_well_formed plain_material) as H.
  split; [split; [exact H|repeat split]|].
  apply (prefab_survives_shader_switch (init plain_material)
           (with_shader LIT (with_base_color [9 # 10; 9 # 10; 9 # 10; 1]
                                             plain_material))
           (with_shader NORMALS plain_material)
           "Clay" NORMALS (prefab_of 0 1 (5 # 10) (1 # 10) (287 # 1000) 0) H);
    reflexivity.
Defined.

Lemma apply_material_prefab_needs_lit_witness :
  (well_formed (mkSettings (attrs (init plain_material))
                           (materials (init plain_material)) DEPTH)
   /\ material (mkSettings (attrs (init plain_material))
                           (materials (init plain_material)) DEPTH) <> LIT)
  /\ apply_material_prefab "Clay"
       (mkSettings (attrs (init plain_material))
                   (materials (init plain_material)) DEPTH)
     = AssertionFails.
Proof.
  assert (H : well_formed (mkSettings (attrs (init plain_material))
                                      (materials (init plain_material)) DEPTH)).
  { split; [eexists; reflexivity|].
    exact (proj2 (init_well_formed plain_material)). }
  assert (Hne : material (mkSettings (attrs (init plain_material))
                                     (materials (init plain_material)) DEPTH)
                <> LIT) by discriminate.
  split; [split; assumption|].
  apply (apply_material_prefab_needs_lit _ "Clay" H Hne).
Defined.

Lemma apply_lighting_profile_effect_witness :
  assoc POINT_CLOUD_PROFILE_NAME LIGHTING_PROFILES
  = Some [("ibl_intensity", JNum 60000);
          ("sun_intensity", JNum 50000);
          ("use_ibl", JBool true);
          ("use_sun", JBool false)]
  /\ ((exists s',
         apply_lighting_profile POINT_CLOUD_PROFILE_NAME (init plain_material)
         = Ok s'
         /\ materials s' = materials (init plain_material)
         /\ material s' = material (init plain_material)
         /\ (forall k v,
               assoc k [("ibl_intensity", JNum 60000);
                        ("sun_intensity", JNum 50000);
                        ("use_ibl", JBool true);
                        ("use_sun", JBool false)] = Some v ->
               assoc k (attrs s') = Some v)
         /\ (forall k,
               assoc k [("ibl_intensity", JNum 60000);
                        ("sun_intensity", JNum 50000);
                        ("use_ibl", JBool true);
                        ("use_sun", JBool false)] = None ->
               assoc k (attrs s') = assoc k (attrs (init plain_material))))
      /\ apply_lighting_profile CUSTOM_PROFILE_NAME (init plain_material)
         = Err KeyError).
Proof.
  split; [reflexivity|].
  apply (apply_lighting_profile_effect (init plain_material)
           POINT_CLOUD_PROFILE_NAME).
  reflexivity.
Defined.

End SettingsProperties.

(* ================================================================== *)
(** ** The Add button *)

Section Adding.

Import String Json Gui GuiSpec Visualize.
Local Open Scope string_scope.
Local Open Scope list_scope.

(** X21. [add_superquadric] always raises [AttributeError]: the entry it
    has just appended to [self.sqs] has no [roll] widget.  The new entry
    stays in [self.sqs], and no panel is added for it. *)
Theorem add_superquadric_raises (fresh : Superquadric)
    (sqs : list Superquadric) (panels : list nat) :
  add_superquadric fresh (sqs, panels)
  = ((sqs ++ [fresh], panels), Err AttributeError).
Proof.
  unfold add_superquadric, last_item. rewrite rev_unit. reflexivity.
Qed.

End Adding.

(* ================================================================== *)
(** ** The generator at small resolutions; how faces cover the vertices *)

Section Coverage.

Local Open Scope R_scope.

(** X22. Below the resolutions of the mesh proper: a negative resolution
    is rejected by [np.linspace] with [ValueError], resolution 0 gives no
    vertices and no faces, and resolution 1 gives the single point at
    [(phi, theta) = (-pi/2, -pi)] and no faces. *)
Theorem generate_small_resolution (a1 a2 a3 e1 e2 : R) (n : Z) :
  (n <= 1)%Z ->
  generate_superquadric_mesh a1 a2 a3 e1 e2 n
  = if (n <? 0)%Z then Err ValueError
    else if (n =? 0)%Z then Ok ([], [])
    else Ok ([sq_point a1 a2 a3 e1 e2 (- PI / 2) (- PI)], []).
Proof.
  intros Hn. destruct (Z.ltb_spec n 0) as [Hneg|Hpos].
  - unfold generate_superquadric_mesh, linspace.
    destruct (Z.ltb_spec n 0); [reflexivity|lia].
  - destruct (Z.eqb_spec n 0) as [->|Hnz]; [reflexivity|].
    assert (n = 1%Z) as -> by lia.
    assert (Hone : forall lo hi, linspace lo hi 1 = Ok [lo + 0 * (hi - lo)])
      by reflexivity.
    unfold generate_superquadric_mesh. rewrite !Hone. cbn [bind].
    rewrite meshgrid_tab, faces_loop_cells.
    unfold np_mul, np_power, np_abs, np_sign, np_cos, np_sin, fin, scal.
    repeat (rewrite gmap_tab || rewrite gzip_tab).
    rewrite !flatten_tab, vstack_T_flat_map.
    cbn [flat_map map app]. rewrite code_point_eq.
    replace (- PI / 2 + 0 * (PI / 2 - - PI / 2)) with (- PI / 2) by ring.
    replace (- PI + 0 * (PI - - PI)) with (- PI) by ring.
    reflexivity.
Qed.

Lemma generate_small_resolution_witness :
  (1 <= 1)%Z
  /\ generate_superquadric_mesh 1 2 3 1 1 1
     = if (1 <? 0)%Z then Err ValueError
       else if (1 =? 0)%Z then Ok ([], [])
       else Ok ([sq_point 1 2 3 1 1 (- PI / 2) (- PI)], []).
Proof.
  split; [lia|]. apply (generate_small_resolution 1 2 3 1 1 1). lia.
Defined.

(** X23. For [n >= 2] no vertex is left out of the triangulation: every
    index in [[0, n^2)] occurs in some returned face. *)
Theorem every_vertex_in_a_face (a1 a2 a3 e1 e2 : R) (n k : Z) :
  (2 <= n)%Z -> (0 <= k < n ^ 2)%Z ->
  exists vs fs f,
    generate_superquadric_mesh a1 a2 a3 e1 e2 n = Ok (vs, fs)
    /\ In f fs /\ In k (face_indices f).
Proof.
  intros Hn Hk.
  exists (grid_vertices a1 a2 a3 e1 e2 n), (cell_faces n).
  set (i := (k / n)%Z). set (j := (k mod n)%Z).
  assert (Hkij : k = (i * n + j)%Z)
    by (unfold i, j; rewrite Z.mul_comm; apply Z.div_mod; lia).
  assert (Hj : (0 <= j < n)%Z) by (apply Z.mod_pos_bound; lia).
  assert (Hi : (0 <= i < n)%Z).
  { split; [apply Z.div_pos; lia|]. apply Z.div_lt_upper_bound; nia. }
  set (ci := Z.min i (n - 2)). set (cj := Z.min j (n - 2)).
  assert (Hc : (i = ci \/ i = ci + 1)%Z) by lia.
  assert (Hd : (j = cj \/ j = cj + 1)%Z) by lia.
  assert (Hcell : forall f, In f (cell_triangles n ci cj) -> In f (cell_faces n)).
  { intros f Hf. apply In_cell_faces. exists ci, cj. repeat split; try lia. exact Hf. }
  destruct Hc as [Hc|Hc], Hd as [Hd|Hd].
  - exists (ci * n + cj, ci * n + cj + 1, ci * n + cj + n)%Z.
    split; [now apply generate_grid|].
    split; [apply Hcell; now left|]. left. lia.
  - exists (ci * n + cj, ci * n + cj + 1, ci * n + cj + n)%Z.
    split; [now apply generate_grid|].
    split; [apply Hcell; now left|]. right; left. lia.
  - exists (ci * n + cj, ci * n + cj + 1, ci * n + cj + n)%Z.
    split; [now apply generate_grid|].
    split; [apply Hcell; now left|]. right; right; left. lia.
  - exists (ci * n + cj + 1, ci * n + cj + n + 1, ci * n + cj + n)%Z.
    split; [now apply generate_grid|].
    split; [apply Hcell; right; now left|]. right; left. lia.
Qed.

Lemma every_vertex_in_a_face_witness :
  ((2 <= 3)%Z /\ (0 <= 8 < 3 ^ 2)%Z)
  /\ exists vs fs f,
       generate_superquadric_mesh 1 1 1 1 1 3 = Ok (vs, fs)
       /\ In f fs /\ In 8%Z (face_indices f).
Proof.
  split; [lia|]. apply (every_vertex_in_a_face 1 1 1 1 1 3 8); lia.
Defined.

(** X24. For [n >= 2] no returned face is degenerate as a triple of
    indices: its three indices are pairwise different. *)
Theorem faces_have_distinct_indices (a1 a2 a3 e1 e2 : R) (n : Z) :
  (2 <= n)%Z ->
  exists vs fs,
    generate_superquadric_mesh a1 a2 a3 e1 e2 n = Ok (vs, fs)
    /\ forall a b c, In (a, b, c) fs -> a <> b /\ b <> c /\ a <> c.
Proof.
  intros Hn. exists (grid_vertices a1 a2 a3 e1 e2 n), (cell_faces n).
  split; [now apply generate_grid|].
  intros a b c Hf. apply In_cell_faces in Hf.
  destruct Hf as [i [j [_ [_ Hf]]]]. unfold cell_triangles in Hf.
  destruct Hf as [Hf|[Hf|[]]]; injection Hf as <- <- <-; lia.
Qed.

Lemma faces_have_distinct_indices_witness :
  (2 <= 2)%Z
  /\ exists vs fs,
       generate_superquadric_mesh 1 1 1 1 1 2 = Ok (vs, fs)
       /\ forall a b c, In (a, b, c) fs -> a <> b /\ b <> c /\ a <> c.
Proof.
  split; [lia|]. apply (faces_have_distinct_indices 1 1 1 1 1 2). lia.
Defined.

End Coverage.
